(** * PostgresStore: a shallow embedding of [src/PostgresStore.js]

    The store is a thin data-access class over one PostgreSQL table.  The
    embedding keeps the shape of the JavaScript:

    - the table is a list of rows (the primary key makes the ids distinct,
      which is an invariant proved below, not a property of the type);
    - every SQL text the class sends is one constructor of [statement], and
      [exec] gives it the meaning the engine gives it;
    - the methods are programs in a small state-and-exception monad [M]
      whose state holds the object ([this]) and the world it talks to
      (table, file system, the two clocks, faults, the query log);
    - [try { ... } catch (error) { ... }] is [try_catch].

    Times are integers in milliseconds.  [Date.now()] is the client clock,
    [NOW()] the database clock; they are separate fields, and both stand
    still during one call.  A TTL is an integer number of seconds.
    Failures of the engine itself (connection lost, value too long for the
    column, ...) come from a fault schedule: the next query fails when the
    head of the schedule says so.  The [metadata] column is modelled as
    never NULL, and the table as existing (empty at first): the schema
    statement changes no row. *)

From Stdlib Require Import Sorting.Sorted Sorting.Permutation QArith.QArith_base.
From stdpp Require Import base numbers list strings gmap.

Local Open Scope string_scope.
Local Open Scope list_scope.
Local Open Scope Z_scope.

(** ** JavaScript values the class handles *)

(** JSON-compatible values of the [metadata] column.  Numbers are the
    integers: the class itself only stores a length and a timestamp. *)
#[local] Unset Elimination Schemes.
Inductive json : Type :=
  | JNull
  | JBool (b : bool)
  | JNum (n : Z)
  | JStr (s : string)
  | JArr (items : list json)
  | JObj (fields : list (string * json)).
#[local] Set Elimination Schemes.

(** A [Buffer]. *)
Definition bytes : Type := list Byte.byte.

(** A JavaScript error object: the class reads [error.code] and
    [error.message] only. *)
Record js_error : Type := mkError {
  code : option string;
  message : string
}.

(** [new Error(msg)]: no [code] property. *)
Definition Error (msg : string) : js_error := mkError None msg.

(** ** The table *)

Record row : Type := mkRow {
  session_id : string;
  session_data : bytes;
  metadata : gmap string json;
  created_at : Z;
  updated_at : Z;
  expires_at : option Z
}.

Definition table : Type := list row.

(** [expires_at IS NULL OR expires_at > NOW()] *)
Definition active (now : Z) (r : row) : bool :=
  match expires_at r with
  | None => true
  | Some e => now <? e
  end.

(** [expires_at IS NOT NULL AND expires_at <= NOW()] *)
Definition expired (now : Z) (r : row) : bool :=
  match expires_at r with
  | None => false
  | Some e => e <=? now
  end.

(** [session_id = $1] *)
Definition has_id (id : string) (r : row) : bool := String.eqb (session_id r) id.

(** [session_id = $1 AND (expires_at IS NULL OR expires_at > NOW())] *)
Definition active_with_id (now : Z) (id : string) (r : row) : bool :=
  has_id id r && active now r.

(** JSONB [a || b] on two objects: key-wise union, the right operand wins. *)
Definition jsonb_concat (a b : gmap string json) : gmap string json := b ∪ a.

(** [UPDATE ... SET ... WHERE p]: the rows after, and the rows matched. *)
Definition update_where (p : row -> bool) (f : row -> row) (tb : table) : table :=
  List.map (fun r => if p r then f r else r) tb.

(** [DELETE FROM ... WHERE p] *)
Definition delete_where (p : row -> bool) (tb : table) : table :=
  List.filter (fun r => negb (p r)) tb.

Definition count_where (p : row -> bool) (tb : table) : nat :=
  length (List.filter p tb).

(** [ORDER BY updated_at DESC], as a stable insertion sort. *)
Fixpoint insert_desc (r : row) (sorted : list row) : list row :=
  match sorted with
  | [] => [r]
  | r' :: rest =>
      if updated_at r' <? updated_at r
      then r :: r' :: rest
      else r' :: insert_desc r rest
  end.

Fixpoint order_by_updated_at_desc (rs : list row) : list row :=
  match rs with
  | [] => []
  | r :: rest => insert_desc r (order_by_updated_at_desc rest)
  end.

(** The row of [getStats]. *)
Record stats_row : Type := mkStats {
  total_sessions : nat;
  active_sessions : nat;
  expired_sessions : nat;
  avg_session_size : option Q;
  oldest_session : option Z;
  latest_activity : option Z
}.

(** The SQL texts of the class, one constructor each, with their
    parameters.  The first argument is the interpolated table name. *)
Inductive statement : Type :=
  | CreateSchema (tbl : string)
  | SelectActiveById (tbl : string) (columns : list string) (id : string)
  | Upsert (tbl : string) (id : string) (data : bytes)
           (md : gmap string json) (expires : option Z)
  | TouchUpdatedAt (tbl : string) (id : string)
  | DeleteById (tbl : string) (id : string)
  | SelectAllActive (tbl : string)
  | MergeMetadata (tbl : string) (id : string) (md : gmap string json)
  | DeleteExpired (tbl : string)
  | SelectStats (tbl : string).

(** What [pool.query] resolves to. *)
Record query_result : Type := mkResult {
  rowCount : nat;
  rows : list row;
  aggregate : option stats_row
}.

Definition opt_min (xs : list Z) : option Z :=
  match xs with
  | [] => None
  | x :: rest => Some (List.fold_right Z.min x rest)
  end.

Definition opt_max (xs : list Z) : option Z :=
  match xs with
  | [] => None
  | x :: rest => Some (List.fold_right Z.max x rest)
  end.

Definition stats_of (now : Z) (tb : table) : stats_row :=
  {| total_sessions := length tb;
     active_sessions := count_where (active now) tb;
     expired_sessions := count_where (expired now) tb;
     avg_session_size :=
       match tb with
       | [] => None
       | _ =>
           Some (Qmake
                   (Z.of_nat (list_sum (List.map (fun r => length (session_data r)) tb)))
                   (Pos.of_nat (length tb)))
       end;
     oldest_session := opt_min (List.map created_at tb);
     latest_activity := opt_max (List.map updated_at tb) |}.

(** [ON CONFLICT (session_id) DO UPDATE SET session_data = $2,
    metadata = $3, updated_at = NOW(), expires_at = $4]; [created_at] is
    not in the SET list. *)
Definition on_conflict_update (now : Z) (data : bytes) (md : gmap string json)
    (expires : option Z) (r : row) : row :=
  {| session_id := session_id r;
     session_data := data;
     metadata := md;
     created_at := created_at r;
     updated_at := now;
     expires_at := expires |}.

(** The inserted row: both timestamps take their [DEFAULT NOW()]. *)
Definition inserted_row (now : Z) (id : string) (data : bytes)
    (md : gmap string json) (expires : option Z) : row :=
  {| session_id := id;
     session_data := data;
     metadata := md;
     created_at := now;
     updated_at := now;
     expires_at := expires |}.

Definition upsert (now : Z) (id : string) (data : bytes) (md : gmap string json)
    (expires : option Z) (tb : table) : table :=
  if existsb (has_id id) tb
  then update_where (has_id id) (on_conflict_update now data md expires) tb
  else tb ++ [inserted_row now id data md expires].

Definition touch (now : Z) (r : row) : row :=
  {| session_id := session_id r;
     session_data := session_data r;
     metadata := metadata r;
     created_at := created_at r;
     updated_at := now;
     expires_at := expires_at r |}.

Definition merge_metadata (now : Z) (md : gmap string json) (r : row) : row :=
  {| session_id := session_id r;
     session_data := session_data r;
     metadata := jsonb_concat (metadata r) md;
     created_at := created_at r;
     updated_at := now;
     expires_at := expires_at r |}.

Definition no_rows (n : nat) : query_result :=
  {| rowCount := n; rows := []; aggregate := None |}.

Definition some_rows (rs : list row) : query_result :=
  {| rowCount := length rs; rows := rs; aggregate := None |}.

(** The engine: one statement against the table at database time [now]. *)
Definition exec (q : statement) (now : Z) (tb : table) : query_result * table :=
  match q with
  | CreateSchema _ => (no_rows 0, tb)
  | SelectActiveById _ _ id =>
      (some_rows (List.filter (active_with_id now id) tb), tb)
  | Upsert _ id data md expires =>
      (no_rows 1, upsert now id data md expires tb)
  | TouchUpdatedAt _ id =>
      (no_rows (count_where (has_id id) tb), update_where (has_id id) (touch now) tb)
  | DeleteById _ id =>
      (no_rows (count_where (has_id id) tb), delete_where (has_id id) tb)
  | SelectAllActive _ =>
      (some_rows (order_by_updated_at_desc (List.filter (active now) tb)), tb)
  | MergeMetadata _ id md =>
      (no_rows (count_where (active_with_id now id) tb),
       update_where (active_with_id now id) (merge_metadata now md) tb)
  | DeleteExpired _ =>
      (no_rows (count_where (expired now) tb), delete_where (expired now) tb)
  | SelectStats _ =>
      ({| rowCount := 1; rows := []; aggregate := Some (stats_of now tb) |}, tb)
  end.

(** ** The object and the world around it *)

(** [PoolConfig] of the driver; only its identity matters here. *)
Record PoolConfig : Type := mkPoolConfig {
  connectionString : string
}.

(** A pool is either one the caller built (known by a handle) or the
    result of [new Pool(config)] evaluated by the constructor. *)
Inductive Pool : Type :=
  | CallerPool (handle : nat)
  | NewPool (config : option PoolConfig).

(** The [options] argument of the constructor; [None] is [undefined]. *)
Record Options : Type := mkOptions {
  opt_pool : option Pool;
  opt_connectionConfig : option PoolConfig;
  opt_tableName : option string;
  opt_sessionTTL : option Z
}.

(** The fields of a [PostgresStore] instance. *)
Record PostgresStore : Type := mkStore {
  pool : Pool;
  initialized : bool;
  tableName : string;
  sessionTTL : option Z
}.

(** Truthiness of the optional values the class tests. *)
Definition truthy_string (s : option string) : bool :=
  match s with
  | Some (String _ _) => true
  | _ => false
  end.

Definition truthy_number (n : option Z) : bool :=
  match n with
  | Some n => negb (n =? 0)
  | None => false
  end.

(** The constructor.  Besides the object it reports the arguments
    [new Pool] was called with, in order. *)
Definition constructor (options : Options)
    : js_error + (PostgresStore * list (option PoolConfig)) :=
  if negb (bool_decide (is_Some (opt_pool options)))
     && negb (bool_decide (is_Some (opt_connectionConfig options)))
  then inl (Error "Either pool or connectionConfig must be provided")
  else
    let '(p, built) :=
      match opt_pool options with
      | Some p => (p, [])
      | None => (NewPool (opt_connectionConfig options),
                 [opt_connectionConfig options])
      end in
    inr ({| pool := p;
            initialized := false;
            tableName :=
              (if truthy_string (opt_tableName options)
               then default "" (opt_tableName options)
               else "whatsapp_sessions");
            sessionTTL :=
              (if truthy_number (opt_sessionTTL options)
               then opt_sessionTTL options
               else None) |},
         built).

(** Everything outside the object. *)
Record World : Type := mkWorld {
  table_rows : table;
  files : gmap string bytes;
  write_error : string -> option js_error;
  clock_js : Z;
  clock_db : Z;
  db_faults : list (option js_error);
  log : list statement;
  pool_ended : bool
}.

Record state : Type := mkState {
  this : PostgresStore;
  world : World
}.

(** ** The monad of the methods *)

Inductive outcome (A : Type) : Type :=
  | Returned (a : A)
  | Thrown (e : js_error).
Arguments Returned {A} a.
Arguments Thrown {A} e.

Definition M (A : Type) : Type := state -> outcome A * state.

Definition ret {A} (a : A) : M A := fun st => (Returned a, st).

Definition bind {A B} (m : M A) (k : A -> M B) : M B :=
  fun st =>
    match m st with
    | (Returned a, st') => k a st'
    | (Thrown e, st') => (Thrown e, st')
    end.

Definition throw {A} (e : js_error) : M A := fun st => (Thrown e, st).

(** [try { body } catch (error) { handler }]: what [body] did before it
    threw stays done. *)
Definition try_catch {A} (body : M A) (handler : js_error -> M A) : M A :=
  fun st =>
    match body st with
    | (Returned a, st') => (Returned a, st')
    | (Thrown e, st') => handler e st'
    end.

Notation "x <~ m ;; k" := (bind m (fun x => k))
  (at level 100, m at next level, right associativity).
Notation "m ;;; k" := (bind m (fun _ => k))
  (at level 100, right associativity).

Definition get_this : M PostgresStore := fun st => (Returned (this st), st).

Definition set_initialized (b : bool) : M unit :=
  fun st =>
    (Returned tt,
     {| this := {| pool := pool (this st);
                   initialized := b;
                   tableName := tableName (this st);
                   sessionTTL := sessionTTL (this st) |};
        world := world st |}).

Definition with_world (f : World -> World) (st : state) : state :=
  {| this := this st; world := f (world st) |}.

(** [Date.now()] *)
Definition Date_now : M Z := fun st => (Returned (clock_js (world st)), st).

(** [this.pool.query(text, params)]: the statement is logged; it fails
    when the fault schedule says so and otherwise runs at [NOW()]. *)
Definition query (q : statement) : M query_result :=
  fun st =>
    let w := world st in
    match db_faults w with
    | Some e :: later =>
        (Thrown e,
         with_world (fun _ =>
           {| table_rows := table_rows w; files := files w;
              write_error := write_error w; clock_js := clock_js w;
              clock_db := clock_db w; db_faults := later;
              log := log w ++ [q]; pool_ended := pool_ended w |}) st)
    | faults =>
        let '(res, tb) := exec q (clock_db w) (table_rows w) in
        (Returned res,
         with_world (fun _ =>
           {| table_rows := tb; files := files w;
              write_error := write_error w; clock_js := clock_js w;
              clock_db := clock_db w; db_faults := tail faults;
              log := log w ++ [q]; pool_ended := pool_ended w |}) st)
    end.

(** [access(filePath, fs.constants.F_OK)] *)
Definition access (path : string) : M unit :=
  fun st =>
    match files (world st) !! path with
    | Some _ => (Returned tt, st)
    | None =>
        (Thrown (mkError (Some "ENOENT")
                   ("ENOENT: no such file or directory, access '" +:+ path +:+ "'")),
         st)
    end.

(** [readFile(filePath)] *)
Definition readFile (path : string) : M bytes :=
  fun st =>
    match files (world st) !! path with
    | Some content => (Returned content, st)
    | None =>
        (Thrown (mkError (Some "ENOENT")
                   ("ENOENT: no such file or directory, open '" +:+ path +:+ "'")),
         st)
    end.

(** [writeFile(path, data)]: creates or overwrites, unless the world
    refuses the write at that path. *)
Definition writeFile (path : string) (data : bytes) : M unit :=
  fun st =>
    let w := world st in
    match write_error w path with
    | Some e => (Thrown e, st)
    | None =>
        (Returned tt,
         with_world (fun _ =>
           {| table_rows := table_rows w; files := <[path := data]> (files w);
              write_error := write_error w; clock_js := clock_js w;
              clock_db := clock_db w; db_faults := db_faults w;
              log := log w; pool_ended := pool_ended w |}) st)
    end.

(** [this.pool.end()] *)
Definition pool_end : M unit :=
  fun st =>
    let w := world st in
    (Returned tt,
     with_world (fun _ =>
       {| table_rows := table_rows w; files := files w;
          write_error := write_error w; clock_js := clock_js w;
          clock_db := clock_db w; db_faults := db_faults w;
          log := log w; pool_ended := true |}) st).

(** [throw new Error(prefix + error.message)] *)
Definition rethrow {A} (prefix : string) (e : js_error) : M A :=
  throw (Error (prefix +:+ message e)).

(** ** The methods *)

(** [#getSessionId] *)
Definition getSessionId (session : string) : string := "whatsapp-" +:+ session.

Fixpoint strip_prefix (p s : string) : option string :=
  match p with
  | EmptyString => Some s
  | String c p' =>
      match s with
      | String c' s' => if Ascii.eqb c c' then strip_prefix p' s' else None
      | EmptyString => None
      end
  end.

(** [id.replace(/^whatsapp-/, '')] *)
Definition strip_namespace (id : string) : string :=
  match strip_prefix "whatsapp-" id with
  | Some s => s
  | None => id
  end.

(** [#ensureInitialized] *)
Definition ensureInitialized : M unit :=
  self <~ get_this ;;
  if initialized self then ret tt
  else
    try_catch
      (query (CreateSchema (tableName self)) ;;;
       set_initialized true)
      (rethrow "Failed to initialize database: ").

(** [sessionExists]; the two [console.log] calls are not modelled. *)
Definition sessionExists (session : string) : M bool :=
  ensureInitialized ;;;
  self <~ get_this ;;
  let sessionId := getSessionId session in
  try_catch
    (result <~ query (SelectActiveById (tableName self)
                        ["session_id"; "created_at"; "updated_at"; "expires_at"]
                        sessionId) ;;
     let exists_ := (0 <? rowCount result)%nat in
     ret exists_)
    (rethrow "Failed to check session existence: ").

(** The metadata [save] computes for the archive it has read. *)
Definition archive_metadata (session : string) (sessionData : bytes)
    (lastModified : Z) : gmap string json :=
  {[ "originalFilename" := JStr (session +:+ ".zip");
     "size" := JNum (Z.of_nat (length sessionData));
     "lastModified" := JNum lastModified ]}.

(** [save] *)
Definition save (session : string) : M unit :=
  ensureInitialized ;;;
  self <~ get_this ;;
  let sessionId := getSessionId session in
  let filePath := session +:+ ".zip" in
  try_catch
    (access filePath ;;;
     sessionData <~ readFile filePath ;;
     lastModified <~ Date_now ;;
     let metadata := archive_metadata session sessionData lastModified in
     expiresAt <~ (if truthy_number (sessionTTL self)
                   then now <~ Date_now ;;
                        ret (Some (now + default 0 (sessionTTL self) * 1000))
                   else ret None) ;;
     query (Upsert (tableName self) sessionId sessionData metadata expiresAt) ;;;
     ret tt)
    (fun error =>
       if bool_decide (code error = Some "ENOENT")
       then throw (Error ("Session file not found: " +:+ filePath))
       else rethrow "Failed to save session: " error).

(** [extract] *)
Definition extract (session path : string) : M (gmap string json) :=
  ensureInitialized ;;;
  self <~ get_this ;;
  let sessionId := getSessionId session in
  try_catch
    (result <~ query (SelectActiveById (tableName self)
                        ["session_data"; "metadata"] sessionId) ;;
     if (rowCount result =? 0)%nat
     then throw (Error ("Session " +:+ session +:+ " not found or expired"))
     else
       match rows result with
       | row0 :: _ =>
           writeFile path (session_data row0) ;;;
           query (TouchUpdatedAt (tableName self) sessionId) ;;;
           ret (metadata row0)
       | [] =>
           throw (Error "Cannot read properties of undefined (reading 'session_data')")
       end)
    (rethrow "Failed to extract session: ").

(** [delete] *)
Definition delete (session : string) : M bool :=
  ensureInitialized ;;;
  self <~ get_this ;;
  let sessionId := getSessionId session in
  try_catch
    (result <~ query (DeleteById (tableName self) sessionId) ;;
     ret (0 <? rowCount result)%nat)
    (rethrow "Failed to delete session: ").

(** One element of what [listSessions] returns. *)
Record SessionInfo : Type := mkSessionInfo {
  session : string;
  info_metadata : gmap string json;
  createdAt : Z;
  updatedAt : Z;
  expiresAt : option Z
}.

Definition session_info (r : row) : SessionInfo :=
  {| session := strip_namespace (session_id r);
     info_metadata := metadata r;
     createdAt := created_at r;
     updatedAt := updated_at r;
     expiresAt := expires_at r |}.

(** [listSessions] *)
Definition listSessions : M (list SessionInfo) :=
  ensureInitialized ;;;
  self <~ get_this ;;
  try_catch
    (result <~ query (SelectAllActive (tableName self)) ;;
     ret (List.map session_info (rows result)))
    (rethrow "Failed to list sessions: ").

(** The columns [getSessionMetadata] selects. *)
Record metadata_record : Type := mkMetadataRecord {
  rec_metadata : gmap string json;
  rec_created_at : Z;
  rec_updated_at : Z;
  rec_expires_at : option Z
}.

Definition metadata_columns (r : row) : metadata_record :=
  {| rec_metadata := metadata r;
     rec_created_at := created_at r;
     rec_updated_at := updated_at r;
     rec_expires_at := expires_at r |}.

(** [getSessionMetadata]: the first row, or [None] for [null]. *)
Definition getSessionMetadata (session : string) : M (option metadata_record) :=
  ensureInitialized ;;;
  self <~ get_this ;;
  let sessionId := getSessionId session in
  try_catch
    (result <~ query (SelectActiveById (tableName self)
                        ["metadata"; "created_at"; "updated_at"; "expires_at"]
                        sessionId) ;;
     ret (if (0 <? rowCount result)%nat
          then metadata_columns <$> head (rows result)
          else None))
    (rethrow "Failed to get session metadata: ").

(** [updateSessionMetadata] *)
Definition updateSessionMetadata (session : string) (md : gmap string json)
    : M bool :=
  ensureInitialized ;;;
  self <~ get_this ;;
  let sessionId := getSessionId session in
  try_catch
    (result <~ query (MergeMetadata (tableName self) sessionId md) ;;
     ret (0 <? rowCount result)%nat)
    (rethrow "Failed to update session metadata: ").

(** [cleanupExpiredSessions] *)
Definition cleanupExpiredSessions : M nat :=
  ensureInitialized ;;;
  self <~ get_this ;;
  try_catch
    (result <~ query (DeleteExpired (tableName self)) ;;
     ret (rowCount result))
    (rethrow "Failed to cleanup expired sessions: ").

(** [getStats] *)
Definition getStats : M (option stats_row) :=
  ensureInitialized ;;;
  self <~ get_this ;;
  try_catch
    (result <~ query (SelectStats (tableName self)) ;;
     ret (aggregate result))
    (rethrow "Failed to get stats: ").

(** [close] *)
Definition close : M unit :=
  fun st =>
    if negb (pool_ended (world st)) then pool_end st else (Returned tt, st).

(** A call of one of the public methods, and its execution with the
    returned value dropped. *)
Inductive operation : Type :=
  | CallSessionExists (session : string)
  | CallSave (session : string)
  | CallExtract (session path : string)
  | CallDelete (session : string)
  | CallListSessions
  | CallGetSessionMetadata (session : string)
  | CallUpdateSessionMetadata (session : string) (md : gmap string json)
  | CallCleanupExpiredSessions
  | CallGetStats
  | CallClose.

Definition void {A} (m : M A) : M unit := m ;;; ret tt.

Definition perform (op : operation) : M unit :=
  match op with
  | CallSessionExists s => void (sessionExists s)
  | CallSave s => save s
  | CallExtract s p => void (extract s p)
  | CallDelete s => void (delete s)
  | CallListSessions => void listSessions
  | CallGetSessionMetadata s => void (getSessionMetadata s)
  | CallUpdateSessionMetadata s md => void (updateSessionMetadata s md)
  | CallCleanupExpiredSessions => void cleanupExpiredSessions
  | CallGetStats => void getStats
  | CallClose => close
  end.

(** A sequence of calls, one after the other. *)
Fixpoint perform_all (ops : list operation) (st : state) : state :=
  match ops with
  | [] => st
  | op :: rest => perform_all rest (snd (perform op st))
  end.

(** ** Vocabulary of the statements *)

(** The row stored under an id. *)
Definition find_row (id : string) (tb : table) : option row :=
  List.find (has_id id) tb.

(** [PRIMARY KEY]: ids are pairwise distinct. *)
Definition primary_key (tb : table) : Prop :=
  List.NoDup (List.map session_id tb).

(** Every id was made by [#getSessionId]. *)
Definition namespaced (tb : table) : Prop :=
  Forall (fun r => exists s, session_id r = getSessionId s) tb.

(** The row an upsert leaves under its id. *)
Definition upserted_row (now : Z) (id : string) (data : bytes)
    (md : gmap string json) (expires : option Z) (tb : table) : row :=
  match find_row id tb with
  | Some r => on_conflict_update now data md expires r
  | None => inserted_row now id data md expires
  end.

(** [a] may come before [b] in a descending listing. *)
Definition newer_first (a b : row) : Prop := updated_at b <= updated_at a.


(** The object once the schema exists. *)
Definition initialized_store (self : PostgresStore) : PostgresStore :=
  {| pool := pool self; initialized := true;
     tableName := tableName self; sessionTTL := sessionTTL self |}.

(** The table a method leaves behind. *)
Definition table_after {A} (m : M A) (st : state) : table :=
  table_rows (world (snd (m st))).

(** The statements a method sent, in order. *)
Definition issued {A} (m : M A) (st : state) : list statement :=
  drop (length (log (world st))) (log (world (snd (m st)))).

(** [st'] is [st] after the world moved on by itself: clocks, files and
    faults may differ, the object and the table do not. *)
Definition later (st st' : state) : Prop :=
  this st' = this st /\ table_rows (world st') = table_rows (world st).

(** How one call may change the table. *)
Inductive table_change (now : Z) (tb : table) : operation -> table -> Prop :=
  | change_nothing op :
      table_change now tb op tb
  | change_save s data md expires :
      table_change now tb (CallSave s)
        (upsert now (getSessionId s) data md expires tb)
  | change_extract s path :
      table_change now tb (CallExtract s path)
        (update_where (has_id (getSessionId s)) (touch now) tb)
  | change_delete s :
      table_change now tb (CallDelete s)
        (delete_where (has_id (getSessionId s)) tb)
  | change_update s md :
      table_change now tb (CallUpdateSessionMetadata s md)
        (update_where (active_with_id now (getSessionId s))
           (merge_metadata now md) tb)
  | change_cleanup :
      table_change now tb CallCleanupExpiredSessions
        (delete_where (expired now) tb).

(** The context a method puts in front of the message of a failure it
    caught. *)
Definition failure_context (op : operation) : string :=
  match op with
  | CallSessionExists _ => "Failed to check session existence: "
  | CallSave _ => "Failed to save session: "
  | CallExtract _ _ => "Failed to extract session: "
  | CallDelete _ => "Failed to delete session: "
  | CallListSessions => "Failed to list sessions: "
  | CallGetSessionMetadata _ => "Failed to get session metadata: "
  | CallUpdateSessionMetadata _ _ => "Failed to update session metadata: "
  | CallCleanupExpiredSessions => "Failed to cleanup expired sessions: "
  | CallGetStats => "Failed to get stats: "
  | CallClose => ""
  end.

(** The error a method raises for a failure [cause] of the database. *)
Definition wrapped (op : operation) (cause : js_error) : js_error :=
  Error (failure_context op +:+ message cause).

(** The schema statement is not going to fail: the flag is on already, or
    the next query is one that succeeds. *)
Definition schema_succeeds (st : state) : Prop :=
  initialized (this st) = true \/ hd None (db_faults (world st)) = None.

(** The fault schedule as the method's own queries meet it, the schema
    statement of a not yet initialized object having taken the first
    entry. *)
Definition own_faults (st : state) : list (option js_error) :=
  if initialized (this st) then db_faults (world st)
  else tail (db_faults (world st)).

(** ** Concrete worlds for the examples *)

(** A world in which nothing fails and both clocks read [now]. *)
Definition calm_world (tb : table) (fs : gmap string bytes) (now : Z) : World :=
  {| table_rows := tb; files := fs; write_error := fun _ => None;
     clock_js := now; clock_db := now; db_faults := []; log := [];
     pool_ended := false |}.

(** A store on the default table whose schema exists already. *)
Definition ready_store (ttl : option Z) : PostgresStore :=
  {| pool := CallerPool 0; initialized := true;
     tableName := "whatsapp_sessions"; sessionTTL := ttl |}.

(** A row of session "s" that expired at time 5, with one custom key. *)
Definition stale_row : row :=
  {| session_id := "whatsapp-s"; session_data := [Byte.x01];
     metadata := {[ "a" := JNum 1 ]};
     created_at := 1; updated_at := 2; expires_at := Some 5 |}.

(** A row of session "s" that never expires, with metadata {a:1,b:2}. *)
Definition fresh_row : row :=
  {| session_id := "whatsapp-s"; session_data := [Byte.x01];
     metadata := {[ "a" := JNum 1; "b" := JNum 2 ]};
     created_at := 1; updated_at := 2; expires_at := None |}.

Definition archive_s : gmap string bytes := {[ "s.zip" := [Byte.x02; Byte.x03] ]}.

(** Time 10, the archive of "s" on disk, and the table holding [r] only. *)
Definition state_with (r : row) (ttl : option Z) : state :=
  {| this := ready_store ttl; world := calm_world [r] archive_s 10 |}.

(** [st] after the world moved on to time [now] with files [fs]. *)
Definition moved_on (st : state) (fs : gmap string bytes) (now : Z) : state :=
  {| this := this st; world := calm_world (table_rows (world st)) fs now |}.

(** [st], except that writing to [path] fails with [e]. *)
Definition refusing_write (path : string) (e : js_error) (st : state) : state :=
  with_world (fun w =>
    {| table_rows := table_rows w; files := files w;
       write_error := fun p => if String.eqb p path then Some e else None;
       clock_js := clock_js w; clock_db := clock_db w;
       db_faults := db_faults w; log := log w; pool_ended := pool_ended w |}) st.

(** [st], except that the next query fails with [e]. *)
Definition failing_next (e : js_error) (st : state) : state :=
  with_world (fun w =>
    {| table_rows := table_rows w; files := files w;
       write_error := write_error w;
       clock_js := clock_js w; clock_db := clock_db w;
       db_faults := [Some e]; log := log w; pool_ended := pool_ended w |}) st.

(** ** Vocabulary of the further properties *)

(** [st] with the schema flag already set. *)
Definition schema_ready (st : state) : state :=
  {| this := initialized_store (this st); world := world st |}.

(** The session a call is about, if it is about one. *)
Definition target (op : operation) : option string :=
  match op with
  | CallSessionExists s | CallSave s | CallExtract s _ | CallDelete s
  | CallGetSessionMetadata s | CallUpdateSessionMetadata s _ => Some s
  | CallListSessions | CallCleanupExpiredSessions | CallGetStats | CallClose => None
  end.

(** The calls that only look. *)
Definition only_reads (op : operation) : bool :=
  match op with
  | CallSessionExists _ | CallListSessions | CallGetSessionMetadata _
  | CallGetStats | CallClose => true
  | _ => false
  end.


(** ** The example client, [test/wwebjs.js] *)

Definition SESSION_NAME : string := "tsulabs".

(** The handler of ['auth_failure']; its two console calls are not
    modelled. *)
Definition on_auth_failure (msg : string) : M unit :=
  authFailureAt <~ Date_now ;;
  updateSessionMetadata SESSION_NAME
    {[ "authFailureAt" := JNum authFailureAt;
       "status" := JStr "failed";
       "error" := JStr msg ]} ;;;
  deleted <~ delete SESSION_NAME ;;
  ret tt.


(** A row of session "t", active until time 50. *)
Definition other_row : row :=
  {| session_id := "whatsapp-t"; session_data := [Byte.x04; Byte.x05; Byte.x06];
     metadata := ∅; created_at := 3; updated_at := 4; expires_at := Some 50 |}.

(** Time 10: the expired row of "s" and the active row of "t". *)
Definition mixed_state : state :=
  {| this := ready_store None;
     world := calm_world [stale_row; other_row] archive_s 10 |}.

(** The same table seen by an object that has not created the schema yet. *)
Definition new_state : state :=
  {| this := {| pool := CallerPool 0; initialized := false;
                tableName := "whatsapp_sessions"; sessionTTL := None |};
     world := calm_world [stale_row; other_row] archive_s 10 |}.


(** A row of session "u" that never expires, updated later than "t". *)
Definition newer_row : row :=
  {| session_id := "whatsapp-u"; session_data := [Byte.x08];
     metadata := ∅; created_at := 6; updated_at := 8; expires_at := None |}.

(** Time 10: the expired "s", the active "t" and "u"; archives of "s" and
    "v" on disk. *)
Definition busy_state : state :=
  {| this := ready_store (Some 60);
     world := calm_world [stale_row; other_row; newer_row]
                {[ "s.zip" := [Byte.x02; Byte.x03]; "v.zip" := [Byte.x09] ]} 10 |}.

(** * Properties *)

Arguments upsert : simpl never.
Arguments update_where : simpl never.
Arguments delete_where : simpl never.
Arguments count_where : simpl never.
Arguments active_with_id : simpl never.
Arguments getSessionId : simpl never.
Arguments archive_metadata : simpl never.

(** Unfolds a method down to the engine calls. *)
Ltac unfold_method :=
  unfold perform, void, sessionExists, save, extract, delete, listSessions,
    getSessionMetadata, updateSessionMetadata, cleanupExpiredSessions,
    getStats, close, ensureInitialized, pool_end, try_catch, rethrow, bind,
    ret, throw, get_this, set_initialized, query, access, readFile, writeFile,
    Date_now, with_world, exec.

Arguments Nat.ltb : simpl never.

Ltac split_state st :=
  let p := fresh "p" in let init := fresh "init" in
  let tbl := fresh "tbl" in let ttl := fresh "ttl" in
  let tb := fresh "tb" in let fs := fresh "fs" in
  let we := fresh "we" in let cj := fresh "cj" in
  let cd := fresh "cd" in let faults := fresh "faults" in
  let lg := fresh "lg" in let pe := fresh "pe" in
  destruct st as [[p init tbl ttl] [tb fs we cj cd faults lg pe]]; simpl in *.

(** Splits on every test the unfolded method still contains. *)
Ltac case_split :=
  repeat (cbn;
    match goal with
    | |- context [match ?x with _ => _ end] =>
        lazymatch x with
        | context [match _ with _ => _ end] => fail
        | _ => destruct x eqn:?
        end
    | |- context [if ?x then _ else _] =>
        lazymatch x with
        | context [if _ then _ else _] => fail
        | context [match _ with _ => _ end] => fail
        | _ => destruct x eqn:?
        end
    end).


(** ** The table as a keyed collection *)

Lemma has_id_true id r : has_id id r = true <-> session_id r = id.
Proof. unfold has_id. apply String.eqb_eq. Qed.

Lemma has_id_false id r : has_id id r = false <-> session_id r <> id.
Proof. unfold has_id. apply String.eqb_neq. Qed.

Lemma strip_prefix_app p s : strip_prefix p (p +:+ s) = Some s.
Proof.
  induction p as [|c p IH]; simpl; [reflexivity|].
  rewrite Ascii.eqb_refl. exact IH.
Qed.

Lemma strip_namespace_getSessionId s : strip_namespace (getSessionId s) = s.
Proof.
  unfold strip_namespace, getSessionId. now rewrite strip_prefix_app.
Qed.

Lemma getSessionId_inj s1 s2 : getSessionId s1 = getSessionId s2 -> s1 = s2.
Proof.
  intros H. rewrite <- (strip_namespace_getSessionId s1), H.
  apply strip_namespace_getSessionId.
Qed.

Lemma find_row_Some id tb r :
  find_row id tb = Some r -> In r tb /\ session_id r = id.
Proof.
  intros H. apply find_some in H as [? ?]. now rewrite <- has_id_true.
Qed.

Lemma find_row_None id tb :
  find_row id tb = None <-> ~ In id (List.map session_id tb).
Proof.
  unfold find_row. induction tb as [|r tb IH]; simpl; [tauto|].
  destruct (has_id id r) eqn:E.
  - apply has_id_true in E. split; [discriminate|]. intros H. destruct H. now left.
  - apply has_id_false in E. rewrite IH. tauto.
Qed.

Lemma filter_has_id id tb :
  primary_key tb ->
  List.filter (has_id id) tb = match find_row id tb with Some r => [r] | None => [] end.
Proof.
  unfold primary_key, find_row. induction tb as [|r tb IH]; simpl; [reflexivity|].
  intros Hnd. inversion Hnd as [|? ? Hnotin Hnd']; subst.
  destruct (has_id id r) eqn:E.
  - apply has_id_true in E. subst id.
    apply find_row_None in Hnotin. rewrite (IH Hnd'). unfold find_row in Hnotin.
    now rewrite Hnotin.
  - auto.
Qed.

Lemma filter_active_with_id now id tb :
  List.filter (active_with_id now id) tb
  = List.filter (active now) (List.filter (has_id id) tb).
Proof.
  induction tb as [|r tb IH]; simpl; [reflexivity|].
  unfold active_with_id at 1. destruct (has_id id r); simpl.
  - destruct (active now r); simpl; now rewrite IH.
  - exact IH.
Qed.

(** What a query by id and activity sees, under the primary key. *)
Lemma select_active_by_id now id tb :
  primary_key tb ->
  List.filter (active_with_id now id) tb
  = match find_row id tb with
    | Some r => if active now r then [r] else []
    | None => []
    end.
Proof.
  intros Hpk. rewrite filter_active_with_id, (filter_has_id _ _ Hpk).
  destruct (find_row id tb); simpl; [|reflexivity]. now destruct (active now r).
Qed.

Lemma count_has_id id tb :
  primary_key tb ->
  count_where (has_id id) tb
  = match find_row id tb with Some _ => 1%nat | None => 0%nat end.
Proof.
  intros Hpk. unfold count_where. rewrite (filter_has_id _ _ Hpk).
  now destruct (find_row id tb).
Qed.

(** *** Updates *)

Lemma update_where_ids p f tb :
  (forall r, session_id (f r) = session_id r) ->
  List.map session_id (update_where p f tb) = List.map session_id tb.
Proof.
  intros Hf. unfold update_where. rewrite List.map_map. apply List.map_ext.
  intros r. destruct (p r); auto.
Qed.

Lemma find_row_update_where p f id tb :
  (forall r, session_id (f r) = session_id r) ->
  find_row id (update_where p f tb)
  = (fun r => if p r then f r else r) <$> find_row id tb.
Proof.
  intros Hf. unfold find_row, update_where.
  induction tb as [|r tb IH]; simpl; [reflexivity|].
  assert (has_id id (if p r then f r else r) = has_id id r) as ->.
  { unfold has_id. destruct (p r); [now rewrite Hf|reflexivity]. }
  destruct (has_id id r); [reflexivity|exact IH].
Qed.

Lemma find_row_delete_where_same id tb :
  find_row id (delete_where (has_id id) tb) = None.
Proof.
  unfold find_row, delete_where. induction tb as [|r tb IH]; simpl; [reflexivity|].
  destruct (has_id id r) eqn:E; simpl; [exact IH|]. now rewrite E.
Qed.

Lemma find_row_delete_where p id tb :
  find_row id (delete_where p tb)
  = List.find (fun r => has_id id r && negb (p r)) tb.
Proof.
  unfold find_row, delete_where. induction tb as [|r tb IH]; simpl; [reflexivity|].
  destruct (p r); simpl.
  - now rewrite andb_false_r.
  - rewrite andb_true_r. now destruct (has_id id r).
Qed.

Lemma find_row_delete_where_other id id' tb :
  id' <> id ->
  find_row id' (delete_where (has_id id) tb) = find_row id' tb.
Proof.
  intros Hne. rewrite find_row_delete_where. unfold find_row.
  induction tb as [|r tb IH]; simpl; [reflexivity|].
  destruct (has_id id' r) eqn:E; simpl; [|exact IH].
  apply has_id_true in E.
  assert (has_id id r = false) as -> by (apply has_id_false; congruence).
  reflexivity.
Qed.

(** *** The upsert *)

Lemma existsb_has_id id tb :
  existsb (has_id id) tb = match find_row id tb with Some _ => true | None => false end.
Proof.
  unfold find_row. induction tb as [|r tb IH]; simpl; [reflexivity|].
  destruct (has_id id r); [reflexivity|exact IH].
Qed.

Lemma find_app_none id tb rs :
  find_row id tb = None -> find_row id (tb ++ rs) = find_row id rs.
Proof.
  unfold find_row. induction tb as [|r tb IH]; simpl; [reflexivity|].
  destruct (has_id id r); [discriminate|exact IH].
Qed.

Lemma find_app_some id tb rs r :
  find_row id tb = Some r -> find_row id (tb ++ rs) = Some r.
Proof.
  unfold find_row. induction tb as [|r0 tb IH]; simpl; [discriminate|].
  destruct (has_id id r0); [auto|exact IH].
Qed.

Lemma find_row_upsert_same now id data md expires tb :
  find_row id (upsert now id data md expires tb)
  = Some (upserted_row now id data md expires tb).
Proof.
  unfold upsert, upserted_row. rewrite existsb_has_id.
  destruct (find_row id tb) as [r|] eqn:E.
  - rewrite find_row_update_where by reflexivity. rewrite E. simpl.
    apply find_row_Some in E as [_ E]. apply has_id_true in E. now rewrite E.
  - rewrite (find_app_none _ _ _ E). unfold find_row. simpl.
    unfold has_id. simpl. now rewrite String.eqb_refl.
Qed.

Lemma find_row_upsert_other now id id' data md expires tb :
  id' <> id ->
  find_row id' (upsert now id data md expires tb) = find_row id' tb.
Proof.
  intros Hne. unfold upsert. rewrite existsb_has_id.
  destruct (find_row id tb) as [r|] eqn:E.
  - rewrite find_row_update_where by reflexivity.
    destruct (find_row id' tb) as [r'|] eqn:E'; simpl; [|reflexivity].
    apply find_row_Some in E' as [_ E'].
    assert (has_id id r' = false) as -> by (apply has_id_false; congruence).
    reflexivity.
  - destruct (find_row id' tb) as [r'|] eqn:E'.
    + now apply find_app_some.
    + rewrite (find_app_none _ _ _ E'). unfold find_row. simpl.
      assert (has_id id' (inserted_row now id data md expires) = false) as ->.
      { apply has_id_false. simpl. congruence. }
      reflexivity.
Qed.

Lemma upsert_ids now id data md expires tb :
  List.map session_id (upsert now id data md expires tb)
  = match find_row id tb with
    | Some _ => List.map session_id tb
    | None => List.map session_id tb ++ [id]
    end.
Proof.
  unfold upsert. rewrite existsb_has_id. destruct (find_row id tb).
  - now apply update_where_ids.
  - now rewrite List.map_app.
Qed.

Lemma upsert_length now id data md expires tb :
  length (upsert now id data md expires tb)
  = match find_row id tb with
    | Some _ => length tb
    | None => S (length tb)
    end.
Proof.
  rewrite <- !(List.length_map session_id), upsert_ids.
  destruct (find_row id tb); [reflexivity|].
  rewrite List.length_app. simpl. lia.
Qed.

(** *** The invariants of a table the class owns *)

Lemma primary_key_update_where p f tb :
  (forall r, session_id (f r) = session_id r) ->
  primary_key tb -> primary_key (update_where p f tb).
Proof. intros Hf. unfold primary_key. now rewrite update_where_ids. Qed.

Lemma primary_key_delete_where p tb :
  primary_key tb -> primary_key (delete_where p tb).
Proof.
  unfold primary_key, delete_where. induction tb as [|r tb IH]; simpl; [auto|].
  intros Hnd. inversion Hnd as [|? ? Hnotin Hnd']; subst.
  destruct (p r); simpl; [auto|]. constructor; [|auto].
  intros Hin. apply Hnotin. apply List.in_map_iff in Hin as (r' & <- & Hin).
  apply List.filter_In in Hin as [Hin _]. now apply List.in_map.
Qed.

Lemma primary_key_upsert now id data md expires tb :
  primary_key tb -> primary_key (upsert now id data md expires tb).
Proof.
  unfold primary_key. rewrite upsert_ids.
  destruct (find_row id tb) eqn:E; [auto|].
  intros Hnd. apply find_row_None in E.
  apply List.NoDup_app; repeat split; auto.
  - repeat constructor. simpl. tauto.
  - intros x Hx [<-|[]]. contradiction.
Qed.

Lemma namespaced_update_where p f tb :
  (forall r, session_id (f r) = session_id r) ->
  namespaced tb -> namespaced (update_where p f tb).
Proof.
  intros Hf. unfold namespaced, update_where. rewrite !List.Forall_forall.
  intros H r Hin. apply List.in_map_iff in Hin as (r' & <- & Hin).
  destruct (p r'); [rewrite Hf|]; auto.
Qed.

Lemma namespaced_delete_where p tb :
  namespaced tb -> namespaced (delete_where p tb).
Proof.
  unfold namespaced, delete_where. rewrite !List.Forall_forall.
  intros H r Hin. apply List.filter_In in Hin as [Hin _]. auto.
Qed.

Lemma namespaced_upsert now s data md expires tb :
  namespaced tb -> namespaced (upsert now (getSessionId s) data md expires tb).
Proof.
  intros H. unfold upsert. destruct (existsb _ tb).
  - now apply namespaced_update_where.
  - unfold namespaced in *. apply List.Forall_app. split; [auto|].
    constructor; [|constructor]. now exists s.
Qed.

(** *** ORDER BY updated_at DESC *)

Lemma insert_desc_perm r rs : Permutation (r :: rs) (insert_desc r rs).
Proof.
  induction rs as [|r' rs IH]; simpl; [reflexivity|].
  destruct (updated_at r' <? updated_at r); [reflexivity|].
  rewrite perm_swap. now apply perm_skip.
Qed.

Lemma order_by_perm rs : Permutation rs (order_by_updated_at_desc rs).
Proof.
  induction rs as [|r rs IH]; simpl; [reflexivity|].
  rewrite <- insert_desc_perm. now apply perm_skip.
Qed.

Lemma insert_desc_sorted r rs :
  StronglySorted newer_first rs -> StronglySorted newer_first (insert_desc r rs).
Proof.
  induction rs as [|r' rs IH]; simpl; intros Hs.
  - repeat constructor.
  - inversion Hs as [|? ? Hs' Hall]; subst.
    destruct (updated_at r' <? updated_at r) eqn:E.
    + apply Z.ltb_lt in E. constructor; [exact Hs|].
      constructor; [unfold newer_first; lia|].
      eapply List.Forall_impl; [|exact Hall].
      unfold newer_first. intros; lia.
    + apply Z.ltb_ge in E. constructor; [auto|].
      rewrite <- insert_desc_perm. constructor; [exact E|exact Hall].
Qed.

Lemma order_by_sorted rs :
  StronglySorted newer_first (order_by_updated_at_desc rs).
Proof.
  induction rs as [|r rs IH]; simpl; [constructor|].
  now apply insert_desc_sorted.
Qed.

Lemma order_by_In r rs : In r (order_by_updated_at_desc rs) <-> In r rs.
Proof.
  split; apply Permutation_in; [symmetry|]; apply order_by_perm.
Qed.

(** In a descending listing a strictly newer row stands before an older one. *)
Lemma sorted_newer_before a b rs :
  StronglySorted newer_first rs ->
  In a rs -> In b rs -> updated_at a < updated_at b ->
  exists l1 l2 l3, rs = l1 ++ b :: l2 ++ a :: l3.
Proof.
  intros Hs Ha Hb Hlt.
  apply List.in_split in Hb as (l1 & l2' & ->).
  apply List.in_app_or in Ha as [Ha|Ha].
  - exfalso. induction l1 as [|x l1 IH]; [destruct Ha|].
    simpl in Hs. inversion Hs as [|? ? Hs' Hall]; subst.
    destruct Ha as [->|Ha]; [|auto].
    rewrite List.Forall_forall in Hall.
    specialize (Hall b). unfold newer_first in Hall.
    assert (In b (l1 ++ b :: l2')) by (apply List.in_or_app; right; now left).
    specialize (Hall H). lia.
  - destruct Ha as [->|Ha]; [lia|].
    apply List.in_split in Ha as (l2 & l3 & ->). now exists l1, l2, l3.
Qed.

(** ** What each method does when the database answers *)

Lemma save_spec st s data :
  db_faults (world st) = [] ->
  files (world st) !! (s +:+ ".zip") = Some data ->
  fst (save s st) = Returned tt
  /\ table_rows (world (snd (save s st)))
     = upsert (clock_db (world st)) (getSessionId s) data
         (archive_metadata s data (clock_js (world st)))
         (if truthy_number (sessionTTL (this st))
          then Some (clock_js (world st) + default 0 (sessionTTL (this st)) * 1000)
          else None)
         (table_rows (world st))
  /\ this (snd (save s st)) = initialized_store (this st)
  /\ db_faults (world (snd (save s st))) = [].
Proof.
  split_state st. intros -> Hfile. unfold_method.
  destruct init; cbn; rewrite !Hfile; cbn; rewrite ?Hfile; cbn;
    destruct (truthy_number ttl); cbn; auto.
Qed.

Lemma sessionExists_spec st s :
  db_faults (world st) = [] ->
  primary_key (table_rows (world st)) ->
  fst (sessionExists s st)
  = Returned match find_row (getSessionId s) (table_rows (world st)) with
             | Some r => active (clock_db (world st)) r
             | None => false
             end
  /\ table_after (sessionExists s) st = table_rows (world st).
Proof.
  unfold table_after. split_state st. intros -> Hpk. unfold_method.
  destruct init; cbn; unfold some_rows; cbn;
    rewrite (select_active_by_id _ _ _ Hpk);
    (destruct (find_row (getSessionId s) tb) as [r|]; [destruct (active cd r)|]);
    auto.
Qed.

Lemma getSessionMetadata_spec st s :
  db_faults (world st) = [] ->
  primary_key (table_rows (world st)) ->
  fst (getSessionMetadata s st)
  = Returned match find_row (getSessionId s) (table_rows (world st)) with
             | Some r =>
                 if active (clock_db (world st)) r
                 then Some (metadata_columns r) else None
             | None => None
             end
  /\ table_after (getSessionMetadata s) st = table_rows (world st).
Proof.
  unfold table_after. split_state st. intros -> Hpk. unfold_method.
  destruct init; cbn; unfold some_rows; cbn;
    rewrite (select_active_by_id _ _ _ Hpk);
    (destruct (find_row (getSessionId s) tb) as [r|]; [destruct (active cd r)|]);
    auto.
Qed.

Lemma listSessions_spec st :
  db_faults (world st) = [] ->
  fst (listSessions st)
  = Returned (List.map session_info
                (order_by_updated_at_desc
                   (List.filter (active (clock_db (world st)))
                      (table_rows (world st)))))
  /\ table_after listSessions st = table_rows (world st).
Proof.
  unfold table_after. split_state st. intros ->. unfold_method.
  destruct init; cbn; auto.
Qed.

Lemma extract_found st s path r :
  db_faults (world st) = [] ->
  primary_key (table_rows (world st)) ->
  find_row (getSessionId s) (table_rows (world st)) = Some r ->
  active (clock_db (world st)) r = true ->
  write_error (world st) path = None ->
  fst (extract s path st) = Returned (metadata r)
  /\ table_after (extract s path) st
     = update_where (has_id (getSessionId s)) (touch (clock_db (world st)))
         (table_rows (world st))
  /\ files (world (snd (extract s path st)))
     = <[path := session_data r]> (files (world st)).
Proof.
  unfold table_after. split_state st. intros -> Hpk Hfind Hact Hwr. unfold_method.
  destruct init; cbn; unfold some_rows; cbn;
    rewrite (select_active_by_id _ _ _ Hpk), Hfind, Hact; cbn;
    rewrite Hwr; cbn; auto.
Qed.

Lemma extract_write_fails st s path r e :
  db_faults (world st) = [] ->
  primary_key (table_rows (world st)) ->
  find_row (getSessionId s) (table_rows (world st)) = Some r ->
  active (clock_db (world st)) r = true ->
  write_error (world st) path = Some e ->
  fst (extract s path st)
  = Thrown (Error ("Failed to extract session: " +:+ message e))
  /\ table_after (extract s path) st = table_rows (world st)
  /\ files (world (snd (extract s path st))) = files (world st).
Proof.
  unfold table_after. split_state st. intros -> Hpk Hfind Hact Hwr. unfold_method.
  destruct init; cbn; unfold some_rows; cbn;
    rewrite (select_active_by_id _ _ _ Hpk), Hfind, Hact; cbn;
    rewrite Hwr; cbn; auto.
Qed.

Lemma extract_absent st s path :
  db_faults (world st) = [] ->
  primary_key (table_rows (world st)) ->
  match find_row (getSessionId s) (table_rows (world st)) with
  | Some r => active (clock_db (world st)) r = false
  | None => True
  end ->
  fst (extract s path st)
  = Thrown (Error ("Failed to extract session: "
                   +:+ "Session " +:+ s +:+ " not found or expired"))
  /\ table_after (extract s path) st = table_rows (world st)
  /\ files (world (snd (extract s path st))) = files (world st).
Proof.
  unfold table_after. split_state st. intros -> Hpk Habs. unfold_method.
  destruct init; cbn; unfold some_rows; cbn;
    rewrite (select_active_by_id _ _ _ Hpk);
    (destruct (find_row (getSessionId s) tb) as [r|]; [rewrite Habs|]);
    cbn; auto.
Qed.

Lemma delete_spec st s :
  db_faults (world st) = [] ->
  fst (delete s st)
  = Returned (0 <? count_where (has_id (getSessionId s)) (table_rows (world st)))%nat
  /\ table_after (delete s) st
     = delete_where (has_id (getSessionId s)) (table_rows (world st)).
Proof.
  unfold table_after. split_state st. intros ->. unfold_method.
  destruct init; cbn; auto.
Qed.

Lemma updateSessionMetadata_spec st s md :
  db_faults (world st) = [] ->
  fst (updateSessionMetadata s md st)
  = Returned (0 <? count_where (active_with_id (clock_db (world st)) (getSessionId s))
                     (table_rows (world st)))%nat
  /\ table_after (updateSessionMetadata s md) st
     = update_where (active_with_id (clock_db (world st)) (getSessionId s))
         (merge_metadata (clock_db (world st)) md) (table_rows (world st)).
Proof.
  unfold table_after. split_state st. intros ->. unfold_method.
  destruct init; cbn; auto.
Qed.

(** ** The table under any call *)

Lemma perform_table_change op st :
  table_change (clock_db (world st)) (table_rows (world st)) op
    (table_after (perform op) st).
Proof.
  unfold table_after. split_state st.
  destruct op; unfold_method; case_split; cbn; try constructor.
Qed.

Lemma perform_primary_key op st :
  primary_key (table_rows (world st)) ->
  primary_key (table_after (perform op) st).
Proof.
  intros Hpk. destruct (perform_table_change op st);
    auto using primary_key_upsert, primary_key_delete_where;
    now apply primary_key_update_where.
Qed.

Lemma perform_namespaced op st :
  namespaced (table_rows (world st)) ->
  namespaced (table_after (perform op) st).
Proof.
  intros Hns. destruct (perform_table_change op st);
    auto using namespaced_upsert, namespaced_delete_where;
    now apply namespaced_update_where.
Qed.

(** X24. Both invariants hold of every table the class has built up from
    an empty one, whatever was called and whatever failed on the way. *)
Lemma perform_all_invariants ops st :
  primary_key (table_rows (world st)) ->
  namespaced (table_rows (world st)) ->
  primary_key (table_rows (world (perform_all ops st)))
  /\ namespaced (table_rows (world (perform_all ops st))).
Proof.
  revert st. induction ops as [|op ops IH]; intros st Hpk Hns; simpl; [auto|].
  apply IH; [now apply perform_primary_key|now apply perform_namespaced].
Qed.

(** * The claims *)

(** ** Construction *)

(** C10. When the options carry both a pool and connection parameters, the
    constructor keeps the given pool and never evaluates [new Pool]: the
    connection parameters play no part in the object it returns. *)
Theorem constructor_prefers_given_pool p config tbl ttl :
  exists self,
    constructor (mkOptions (Some p) (Some config) tbl ttl) = inr (self, [])
    /\ pool self = p
    /\ forall config',
         constructor (mkOptions (Some p) (Some config') tbl ttl) = inr (self, []).
Proof.
  unfold constructor. simpl. eexists. repeat split.
Qed.

(** ** Deletion *)

(** C6. [delete] removes the row whatever its expiry: when a row is stored
    under the name it returns true and the row is gone, even if the row had
    expired and [sessionExists] no longer saw it; when no row is stored it
    returns false, raises nothing and leaves the table as it was.  Rows of
    other names are never touched. *)
Theorem delete_ignores_expiry st s :
  db_faults (world st) = [] ->
  primary_key (table_rows (world st)) ->
  let id := getSessionId s in
  let tb := table_rows (world st) in
  let tb' := table_after (delete s) st in
  find_row id tb' = None
  /\ (forall id', id' <> id -> find_row id' tb' = find_row id' tb)
  /\ (forall r, find_row id tb = Some r ->
        fst (delete s st) = Returned true
        /\ (expired (clock_db (world st)) r = true ->
              fst (sessionExists s st) = Returned false))
  /\ (find_row id tb = None ->
        fst (delete s st) = Returned false /\ tb' = tb).
Proof.
  intros Hf Hpk id tb tb'.
  destruct (delete_spec st s Hf) as [Hres Htb]. fold id tb tb' in Hres, Htb.
  subst tb'. rewrite Htb, Hres, (count_has_id _ _ Hpk). fold id tb.
  repeat split.
  - apply find_row_delete_where_same.
  - intros id' Hne. now apply find_row_delete_where_other.
  - now rewrite H.
  - intros Hexp. destruct (sessionExists_spec st s Hf Hpk) as [-> _].
    fold id tb. rewrite H. f_equal. unfold expired in Hexp. unfold active.
    destruct (expires_at r); [|discriminate]. apply Z.leb_le in Hexp.
    apply Z.ltb_ge. exact Hexp.
  - now rewrite H.
  - apply find_row_None in H. unfold delete_where.
    clear -H. induction tb as [|r tb IH]; simpl; [reflexivity|].
    simpl in H. destruct (has_id id r) eqn:E.
    + apply has_id_true in E. tauto.
    + simpl. f_equal. apply IH. tauto.
Qed.

(** ** Metadata *)

Lemma count_active_with_id now id tb :
  primary_key tb ->
  count_where (active_with_id now id) tb
  = match find_row id tb with
    | Some r => if active now r then 1%nat else 0%nat
    | None => 0%nat
    end.
Proof.
  intros Hpk. unfold count_where. rewrite (select_active_by_id _ _ _ Hpk).
  destruct (find_row id tb) as [r|]; [|reflexivity]. now destruct (active now r).
Qed.

Lemma find_row_merge now id md tb r :
  find_row id tb = Some r ->
  find_row id (update_where (active_with_id now id) (merge_metadata now md) tb)
  = Some (if active now r then merge_metadata now md r else r).
Proof.
  intros Hfind. rewrite find_row_update_where by reflexivity. rewrite Hfind. simpl.
  apply find_row_Some in Hfind as [_ Hid]. apply has_id_true in Hid.
  unfold active_with_id. now rewrite Hid.
Qed.

Lemma jsonb_concat_lookup a b k :
  jsonb_concat a b !! k = match b !! k with Some v => Some v | None => a !! k end.
Proof.
  unfold jsonb_concat. rewrite lookup_union. destruct (b !! k), (a !! k); reflexivity.
Qed.

(** C5. On an active session whose metadata is {a:1,b:2},
    [updateSessionMetadata] with {b:3,c:4} returns true and leaves
    {a:1,b:3,c:4}, with [updated_at] set to the time of the statement and
    nothing else in the row changed. *)
Theorem update_metadata_example st s r :
  db_faults (world st) = [] ->
  primary_key (table_rows (world st)) ->
  find_row (getSessionId s) (table_rows (world st)) = Some r ->
  active (clock_db (world st)) r = true ->
  metadata r = {[ "a" := JNum 1; "b" := JNum 2 ]} ->
  let call := updateSessionMetadata s {[ "b" := JNum 3; "c" := JNum 4 ]} in
  fst (call st) = Returned true
  /\ exists r',
       find_row (getSessionId s) (table_after call st) = Some r'
       /\ metadata r' = {[ "a" := JNum 1; "b" := JNum 3; "c" := JNum 4 ]}
       /\ updated_at r' = clock_db (world st)
       /\ session_data r' = session_data r
       /\ created_at r' = created_at r
       /\ expires_at r' = expires_at r.
Proof.
  intros Hf Hpk Hfind Hact Hmd call.
  destruct (updateSessionMetadata_spec st s {[ "b" := JNum 3; "c" := JNum 4 ]} Hf)
    as [Hres Htb].
  fold call in Hres, Htb. rewrite Hres, Htb.
  rewrite (count_active_with_id _ _ _ Hpk), Hfind, Hact. split; [reflexivity|].
  eexists. split; [apply find_row_merge; exact Hfind|]. rewrite Hact. simpl.
  repeat split. rewrite Hmd. apply map_eq. intros k.
  rewrite jsonb_concat_lookup.
  destruct (decide (k = "b")) as [->|Hb]; [reflexivity|].
  destruct (decide (k = "c")) as [->|Hc]; [reflexivity|].
  destruct (decide (k = "a")) as [->|Ha]; [reflexivity|].
  rewrite !lookup_insert_ne by congruence.
  now rewrite !lookup_singleton_ne by congruence.
Qed.

(** ** Extraction *)

(** C9. When the write of the blob to the destination fails, [extract]
    raises (the cause wrapped in its own context), returns no metadata, has
    sent the SELECT only, and leaves both the table and the files as they
    were: the refresh of [updated_at] comes after the write in the code and
    is reached only when the write succeeded, in which case the row's
    [updated_at] becomes the time of the statement. *)
Theorem extract_write_failure_leaves_row st s path r :
  db_faults (world st) = [] ->
  primary_key (table_rows (world st)) ->
  find_row (getSessionId s) (table_rows (world st)) = Some r ->
  active (clock_db (world st)) r = true ->
  (forall e,
     write_error (world st) path = Some e ->
     fst (extract s path st)
     = Thrown (Error ("Failed to extract session: " +:+ message e))
     /\ table_after (extract s path) st = table_rows (world st)
     /\ find_row (getSessionId s) (table_after (extract s path) st) = Some r
     /\ files (world (snd (extract s path st))) = files (world st)
     /\ Forall (fun q => forall tbl id, q <> TouchUpdatedAt tbl id)
          (issued (extract s path) st))
  /\ (write_error (world st) path = None ->
      fst (extract s path st) = Returned (metadata r)
      /\ find_row (getSessionId s) (table_after (extract s path) st)
         = Some (touch (clock_db (world st)) r)
      /\ files (world (snd (extract s path st))) !! path = Some (session_data r)
      /\ exists before,
           issued (extract s path) st
           = before ++ [TouchUpdatedAt (tableName (this st)) (getSessionId s)]).
Proof.
  intros Hf Hpk Hfind Hact. split.
  - intros e Hwr.
    destruct (extract_write_fails st s path r e Hf Hpk Hfind Hact Hwr)
      as (Hres & Htb & Hfs).
    rewrite Hres, Htb, Hfs. repeat split; [exact Hfind|].
    clear Hres Htb Hfs. unfold issued. split_state st. subst faults.
    generalize (select_active_by_id cd (getSessionId s) tb Hpk).
    rewrite Hfind, Hact. intros Hsel.
    unfold_method. destruct init; cbn; unfold some_rows; cbn; rewrite Hsel; cbn;
      rewrite Hwr; cbn; rewrite <- ?app_assoc, drop_app_length;
      repeat constructor; discriminate.
  - intros Hwr.
    destruct (extract_found st s path r Hf Hpk Hfind Hact Hwr)
      as (Hres & Htb & Hfs).
    rewrite Hres, Htb, Hfs. repeat split.
    + rewrite find_row_update_where by reflexivity. rewrite Hfind. simpl.
      apply find_row_Some in Hfind as [_ Hid]. apply has_id_true in Hid.
      now rewrite Hid.
    + apply lookup_insert_eq.
    + clear Hres Htb Hfs. unfold issued. split_state st. subst faults.
      generalize (select_active_by_id cd (getSessionId s) tb Hpk).
      rewrite Hfind, Hact. intros Hsel.
      unfold_method. destruct init; cbn; unfold some_rows; cbn; rewrite Hsel; cbn;
        rewrite Hwr; cbn; rewrite <- ?app_assoc, drop_app_length.
      * now exists [SelectActiveById tbl ["session_data"; "metadata"] (getSessionId s)].
      * now exists [CreateSchema tbl;
                    SelectActiveById tbl ["session_data"; "metadata"] (getSessionId s)].
Qed.

(** ** Which calls replace the metadata *)

Lemma primary_key_unique tb id r r' :
  primary_key tb -> find_row id tb = Some r ->
  In r' tb -> session_id r' = id -> r' = r.
Proof.
  intros Hpk Hfind Hin Hid.
  assert (In r' (List.filter (has_id id) tb)) as H.
  { apply List.filter_In. split; [exact Hin|]. now apply has_id_true. }
  rewrite (filter_has_id _ _ Hpk), Hfind in H. destruct H as [H|[]]. now symmetry.
Qed.

Lemma find_row_delete_where_kept p id tb r r' :
  primary_key tb -> find_row id tb = Some r ->
  find_row id (delete_where p tb) = Some r' -> r' = r.
Proof.
  intros Hpk Hfind Hfind'. apply find_row_Some in Hfind' as [Hin Hid].
  apply List.filter_In in Hin as [Hin _]. eapply primary_key_unique; eauto.
Qed.

(** C3, counterexample.  The stored metadata has the key "a"; the session
    is saved again; "a" is gone, though [save] was given no metadata at all. *)
Lemma save_replaces_metadata_counterexample :
  ~ (forall op st s r r' k,
       primary_key (table_rows (world st)) ->
       find_row (getSessionId s) (table_rows (world st)) = Some r ->
       find_row (getSessionId s) (table_after (perform op) st) = Some r' ->
       (forall md, op = CallUpdateSessionMetadata s md -> md !! k = None) ->
       is_Some (metadata r !! k) ->
       is_Some (metadata r' !! k)).
Proof.
  intros H.
  specialize (H (CallSave "s") (state_with fresh_row None) "s" fresh_row
                (upserted_row 10 "whatsapp-s" [Byte.x02; Byte.x03]
                   (archive_metadata "s" [Byte.x02; Byte.x03] 10) None [fresh_row])
                "a").
  assert (is_Some (@None json)) as [v Hv]; [|discriminate].
  apply H.
  - repeat constructor. simpl. tauto.
  - reflexivity.
  - vm_compute. reflexivity.
  - discriminate.
  - now exists (JNum 1).
Qed.

(** C3, amended.  For a stored session: (1) no call other than a [save] of
    that very session removes or changes a key it was not given, whatever
    the database does; (2) [updateSessionMetadata] on the active session
    leaves the key-wise union of the stored and the supplied map, supplied
    values winning; (3) [save] of the session replaces the whole map by the
    one computed from the archive. *)
Theorem metadata_merged_unless_saved st s r :
  primary_key (table_rows (world st)) ->
  find_row (getSessionId s) (table_rows (world st)) = Some r ->
  (forall op r' k,
     op <> CallSave s ->
     find_row (getSessionId s) (table_after (perform op) st) = Some r' ->
     (forall md, op = CallUpdateSessionMetadata s md -> md !! k = None) ->
     metadata r' !! k = metadata r !! k)
  /\ (forall md,
        db_faults (world st) = [] ->
        active (clock_db (world st)) r = true ->
        exists r',
          find_row (getSessionId s) (table_after (updateSessionMetadata s md) st)
          = Some r'
          /\ forall k,
               metadata r' !! k
               = match md !! k with Some v => Some v | None => metadata r !! k end)
  /\ (forall data,
        db_faults (world st) = [] ->
        files (world st) !! (s +:+ ".zip") = Some data ->
        exists r',
          find_row (getSessionId s) (table_after (save s) st) = Some r'
          /\ metadata r' = archive_metadata s data (clock_js (world st))).
Proof.
  intros Hpk Hfind. pose proof (find_row_Some _ _ _ Hfind) as [_ Hid]. repeat split.
  - intros op r' k Hop Hfind' Hk.
    destruct (perform_table_change op st).
    + congruence.
    + rewrite find_row_upsert_other in Hfind'; [congruence|].
      intros Hs. apply getSessionId_inj in Hs. congruence.
    + rewrite find_row_update_where, Hfind in Hfind' by reflexivity.
      simpl in Hfind'. injection Hfind' as <-. now destruct (has_id _ r).
    + destruct (decide (getSessionId s0 = getSessionId s)) as [E|E].
      * rewrite E, find_row_delete_where_same in Hfind'. discriminate.
      * rewrite find_row_delete_where_other in Hfind' by congruence. congruence.
    + rewrite find_row_update_where, Hfind in Hfind' by reflexivity.
      simpl in Hfind'. injection Hfind' as <-.
      destruct (active_with_id _ _ r) eqn:Eact; [|reflexivity].
      simpl. rewrite jsonb_concat_lookup.
      unfold active_with_id in Eact. apply andb_true_iff in Eact as [Eid _].
      apply has_id_true in Eid. rewrite Hid in Eid. apply getSessionId_inj in Eid.
      subst s0. now rewrite (Hk md eq_refl).
    + now rewrite (find_row_delete_where_kept _ _ _ _ _ Hpk Hfind Hfind').
  - intros md Hf Hact.
    destruct (updateSessionMetadata_spec st s md Hf) as [_ ->].
    eexists. split; [apply find_row_merge; exact Hfind|].
    intros k. rewrite Hact. simpl. apply jsonb_concat_lookup.
  - intros data Hf Hfile.
    destruct (save_spec st s data Hf Hfile) as (_ & Htb & _).
    unfold table_after. rewrite Htb, find_row_upsert_same.
    eexists. split; [reflexivity|]. unfold upserted_row. now rewrite Hfind.
Qed.

(** ** Statements per call *)

(** C4, counterexample.  On an active session and a healthy database
    [extract] sends two statements, not one. *)
Lemma extract_two_statements_counterexample :
  ~ (forall op st,
       initialized (this st) = true ->
       (length (issued (perform op) st) <= 1)%nat).
Proof.
  intros H.
  specialize (H (CallExtract "s" "out.zip") (state_with fresh_row None) eq_refl).
  vm_compute in H. lia.
Qed.

(** C4, amended.  Once the schema exists, every call other than [extract]
    sends at most one statement.  [extract] sends at most two, and a
    successful [extract] has sent exactly two, one after the other: the
    SELECT of the active row and then, separately, the UPDATE of
    [updated_at] by id. *)
Theorem one_statement_unless_extract op st :
  initialized (this st) = true ->
  match op with
  | CallExtract s path =>
      (length (issued (perform op) st) <= 2)%nat
      /\ (fst (perform op st) = Returned tt ->
          issued (perform op) st
          = [SelectActiveById (tableName (this st)) ["session_data"; "metadata"]
               (getSessionId s);
             TouchUpdatedAt (tableName (this st)) (getSessionId s)])
  | _ => (length (issued (perform op) st) <= 1)%nat
  end.
Proof.
  unfold issued. split_state st. intros ->.
  destruct op; unfold_method; try split; case_split; cbn;
    rewrite <- ?app_assoc, ?drop_app_length, ?drop_all; simpl;
    try lia; try discriminate; try reflexivity.
Qed.

(** ** Errors *)

(** C7, counterexample.  With no row for the name, the error [extract]
    raises is the "not found or expired" error caught by the method's own
    handler, so it has exactly the shape of a wrapped database failure. *)
Lemma extract_not_found_is_wrapped_counterexample :
  ~ (forall st s path,
       db_faults (world st) = [] ->
       find_row (getSessionId s) (table_rows (world st)) = None ->
       exists e,
         fst (extract s path st) = Thrown e
         /\ forall cause, e <> wrapped (CallExtract s path) cause).
Proof.
  intros H.
  destruct (H {| this := ready_store None; world := calm_world [] ∅ 10 |}
              "s" "out.zip" eq_refl eq_refl) as (e & He & Hdistinct).
  apply (Hdistinct (Error "Session s not found or expired")).
  vm_compute in He. injection He as <-. reflexivity.
Qed.

(** C7, amended.  (0) When the schema statement of a not yet initialized
    object fails, every method raises "Failed to initialize database:
    <message>" and goes no further.  Otherwise, that is once the schema
    statement has succeeded, in this call or in an earlier one: (1) [save]
    of a session whose archive is missing raises "Session file not found:
    <name>.zip", which no wrapped database failure of [save] equals;
    (2) [extract] with no active row raises "Session <name> not found or
    expired" wrapped in the context of [extract], like a database failure;
    (3) in every method a failing query of the method is raised wrapped in
    the method's context (for [save]: when the archive is there and the
    failure does not carry the code ENOENT); (4) so is a failure of the
    second query of [extract]. *)
Theorem not_found_and_wrapped_errors st :
  (forall op cause rest,
     initialized (this st) = false ->
     db_faults (world st) = Some cause :: rest ->
     op <> CallClose ->
     fst (perform op st)
     = Thrown (Error ("Failed to initialize database: " +:+ message cause)))
  /\ (schema_succeeds st ->
      (forall s,
         files (world st) !! (s +:+ ".zip") = None ->
         fst (save s st)
         = Thrown (Error ("Session file not found: " +:+ s +:+ ".zip"))
         /\ forall cause,
              Error ("Session file not found: " +:+ s +:+ ".zip")
              <> wrapped (CallSave s) cause)
      /\ (forall s path,
            own_faults st = [] ->
            primary_key (table_rows (world st)) ->
            match find_row (getSessionId s) (table_rows (world st)) with
            | Some r => active (clock_db (world st)) r = false
            | None => True
            end ->
            fst (extract s path st)
            = Thrown (wrapped (CallExtract s path)
                        (Error ("Session " +:+ s +:+ " not found or expired"))))
      /\ (forall op cause rest,
            own_faults st = Some cause :: rest ->
            op <> CallClose ->
            (forall s, op = CallSave s ->
               is_Some (files (world st) !! (s +:+ ".zip"))
               /\ code cause <> Some "ENOENT") ->
            fst (perform op st) = Thrown (wrapped op cause))
      /\ (forall s path r cause rest,
            own_faults st = None :: Some cause :: rest ->
            primary_key (table_rows (world st)) ->
            find_row (getSessionId s) (table_rows (world st)) = Some r ->
            active (clock_db (world st)) r = true ->
            write_error (world st) path = None ->
            fst (extract s path st) = Thrown (wrapped (CallExtract s path) cause))).
Proof.
  split.
  { intros op cause rest Hinit Hf Hop. split_state st. subst init faults.
    destruct op; try congruence; unfold_method; reflexivity. }
  intros Hschema. unfold own_faults.
  assert (initialized (this st) = true
          \/ (initialized (this st) = false
              /\ exists rest, db_faults (world st) = None :: rest
                              /\ tail (db_faults (world st)) = rest)
          \/ (initialized (this st) = false /\ db_faults (world st) = []))
    as Hcases.
  { destruct Hschema as [H|H]; [now left|].
    destruct (initialized (this st)); [now left|right].
    destruct (db_faults (world st)) as [|[e|] rest]; try discriminate; eauto. }
  clear Hschema. repeat split.
  - split_state st.
    destruct Hcases as [->|[[-> (rest & -> & _)]|[-> ->]]];
      unfold_method; cbn; rewrite H; cbn; reflexivity.
  - intros cause. unfold wrapped, Error. simpl. discriminate.
  - intros s path Hown Hpk Habs.
    pose proof (select_active_by_id (clock_db (world st)) (getSessionId s)
                  (table_rows (world st)) Hpk) as Hsel.
    assert (List.filter (active_with_id (clock_db (world st)) (getSessionId s))
              (table_rows (world st)) = []) as Hnone.
    { rewrite Hsel. destruct (find_row _ _); [now rewrite Habs|reflexivity]. }
    clear Hsel Habs. split_state st.
    destruct Hcases as [->|[[-> (rest & -> & _)]|[-> ->]]]; simpl in Hown;
      subst; unfold_method; cbn; unfold some_rows; cbn; rewrite Hnone; cbn;
      reflexivity.
  - intros op cause rest Hown Hop Hsave. split_state st. unfold wrapped.
    destruct Hcases as [->|[[-> (rest' & -> & _)]|[-> ->]]]; simpl in Hown;
      try discriminate; subst;
      (destruct op as [s|s|s path|s| |s|s md| | | ]; try congruence;
       unfold_method; cbn; try reflexivity;
       destruct (Hsave s eq_refl) as [[data Hdata] Hcode];
       rewrite Hdata; cbn; rewrite Hdata; cbn;
       destruct (truthy_number ttl); cbn;
       (rewrite bool_decide_eq_false_2 by exact Hcode); reflexivity).
  - intros s path r cause rest Hown Hpk Hfind Hact Hwr.
    pose proof (select_active_by_id (clock_db (world st)) (getSessionId s)
                  (table_rows (world st)) Hpk) as Hsel.
    rewrite Hfind, Hact in Hsel.
    split_state st. unfold wrapped.
    destruct Hcases as [->|[[-> (rest' & -> & _)]|[-> ->]]]; simpl in Hown;
      try discriminate; subst;
      unfold_method; cbn; unfold some_rows; cbn; rewrite Hsel; cbn;
      rewrite Hwr; cbn; reflexivity.
Qed.

(** ** Saving *)

Lemma updated_at_upserted now id data md expires tb :
  updated_at (upserted_row now id data md expires tb) = now.
Proof. unfold upserted_row. now destruct (find_row id tb). Qed.

(** C2. Two saves of the same name, the second at a later database time
    and from a different archive content: the table holds exactly one row
    for the name (and no more rows than after the first save); its
    [session_data] is the second content, its [updated_at] is strictly
    greater than after the first save, and its [created_at] is the one the
    first save left. *)
Theorem save_twice_one_row st s data1 data2 st1' :
  primary_key (table_rows (world st)) ->
  db_faults (world st) = [] ->
  files (world st) !! (s +:+ ".zip") = Some data1 ->
  later (snd (save s st)) st1' ->
  db_faults (world st1') = [] ->
  files (world st1') !! (s +:+ ".zip") = Some data2 ->
  clock_db (world st) < clock_db (world st1') ->
  let id := getSessionId s in
  let tb1 := table_after (save s) st in
  let tb2 := table_after (save s) st1' in
  fst (save s st) = Returned tt
  /\ fst (save s st1') = Returned tt
  /\ exists r1 r2,
       find_row id tb1 = Some r1
       /\ find_row id tb2 = Some r2
       /\ count_where (has_id id) tb2 = 1%nat
       /\ length tb2 = length tb1
       /\ session_data r2 = data2
       /\ updated_at r1 < updated_at r2
       /\ created_at r2 = created_at r1.
Proof.
  intros Hpk Hf1 Hfile1 [_ Hsame] Hf2 Hfile2 Hclock id tb1 tb2.
  destruct (save_spec st s data1 Hf1 Hfile1) as (Hres1 & Htb1 & _).
  destruct (save_spec st1' s data2 Hf2 Hfile2) as (Hres2 & Htb2 & _).
  rewrite Hsame in Htb2. fold (table_after (save s) st) in Htb1, Htb2.
  fold (table_after (save s) st1') in Htb2. fold tb1 in Htb1, Htb2. fold tb2 in Htb2.
  fold id in Htb1, Htb2.
  assert (primary_key tb1) as Hpk1 by (rewrite Htb1; now apply primary_key_upsert).
  assert (primary_key tb2) as Hpk2 by (rewrite Htb2; now apply primary_key_upsert).
  assert (exists r1, find_row id tb1 = Some r1
                     /\ updated_at r1 = clock_db (world st)) as (r1 & Hr1 & Hup1).
  { eexists. rewrite Htb1, find_row_upsert_same. split; [reflexivity|].
    apply updated_at_upserted. }
  split; [exact Hres1|]. split; [exact Hres2|].
  exists r1. eexists. split; [exact Hr1|].
  split; [rewrite Htb2; apply find_row_upsert_same|].
  unfold upserted_row. rewrite Hr1. simpl. repeat split.
  - rewrite (count_has_id _ _ Hpk2), Htb2, find_row_upsert_same. reflexivity.
  - rewrite Htb2, upsert_length, Hr1. reflexivity.
  - lia.
Qed.

(** ** Expiry *)

(** A constructed store has no TTL of zero: [options.sessionTTL || null]
    turns 0 into "no TTL". *)
Lemma constructor_ttl_not_zero options self built T :
  constructor options = inr (self, built) ->
  sessionTTL self = Some T -> T <> 0.
Proof.
  unfold constructor. destruct (_ && _); [discriminate|].
  destruct (opt_pool options); intros [= <- _]; simpl;
    destruct (opt_sessionTTL options) as [n|]; simpl; try discriminate;
    destruct (Z.eqb_spec n 0); simpl; try discriminate; congruence.
Qed.

(** Without a TTL the saved row never expires. *)
Lemma save_without_ttl st s data :
  db_faults (world st) = [] ->
  files (world st) !! (s +:+ ".zip") = Some data ->
  truthy_number (sessionTTL (this st)) = false ->
  exists r,
    find_row (getSessionId s) (table_after (save s) st) = Some r
    /\ expires_at r = None
    /\ forall now, active now r = true.
Proof.
  intros Hf Hfile Httl. destruct (save_spec st s data Hf Hfile) as (_ & Htb & _).
  rewrite Httl in Htb. unfold table_after. rewrite Htb, find_row_upsert_same.
  eexists. split; [reflexivity|].
  assert (expires_at (upserted_row (clock_db (world st)) (getSessionId s) data
                        (archive_metadata s data (clock_js (world st))) None
                        (table_rows (world st))) = None) as Hexp
    by (unfold upserted_row; now destruct (find_row _ _)).
  split; [exact Hexp|]. intros now. unfold active. now rewrite Hexp.
Qed.

(** The names a listing shows. *)
Lemma listed_names st l :
  db_faults (world st) = [] ->
  fst (listSessions st) = Returned l ->
  forall name,
    In name (List.map session l)
    <-> exists r, In r (table_rows (world st))
                  /\ active (clock_db (world st)) r = true
                  /\ strip_namespace (session_id r) = name.
Proof.
  intros Hf Hl name. destruct (listSessions_spec st Hf) as [Hres _].
  rewrite Hres in Hl. injection Hl as <-.
  rewrite List.map_map, List.in_map_iff. simpl. split.
  - intros (r & Hname & Hin). apply order_by_In, List.filter_In in Hin. now exists r.
  - intros (r & Hin & Hact & Hname). exists r. split; [exact Hname|].
    apply order_by_In, List.filter_In. now split.
Qed.

Lemma listed_iff_active st l s r :
  db_faults (world st) = [] ->
  primary_key (table_rows (world st)) ->
  namespaced (table_rows (world st)) ->
  find_row (getSessionId s) (table_rows (world st)) = Some r ->
  fst (listSessions st) = Returned l ->
  In s (List.map session l) <-> active (clock_db (world st)) r = true.
Proof.
  intros Hf Hpk Hns Hfind Hl. rewrite (listed_names st l Hf Hl). split.
  - intros (r' & Hin & Hact & Hname).
    unfold namespaced in Hns. rewrite List.Forall_forall in Hns.
    destruct (Hns r' Hin) as [s' Hs'].
    rewrite Hs', strip_namespace_getSessionId in Hname. subst s'.
    now rewrite <- (primary_key_unique _ _ _ _ Hpk Hfind Hin Hs').
  - intros Hact. exists r. apply find_row_Some in Hfind as [Hin Hid].
    repeat split; auto. rewrite Hid. apply strip_namespace_getSessionId.
Qed.

(** C1. A session saved at client time [t0] by a store whose TTL is [T]
    seconds ([T] not zero, as in every constructed store) gets
    [expires_at = t0 + 1000 T] milliseconds.
    Whatever else the world does afterwards, as long as the object and the
    table stay as the save left them, at database time [now] the row is
    still stored, and
    - if [now < t0 + 1000 T]: [sessionExists] is true, [extract] returns
      the metadata, [listSessions] shows the name, [getSessionMetadata]
      returns the record;
    - if [t0 + 1000 T <= now]: [sessionExists] is false, [extract] raises
      "not found or expired", [listSessions] omits the name,
      [getSessionMetadata] returns null.
    The test that decides is [active], that is
    [expires_at IS NULL OR expires_at > NOW()]. *)
Theorem ttl_filtering st s T data path st2 :
  primary_key (table_rows (world st)) ->
  namespaced (table_rows (world st)) ->
  db_faults (world st) = [] ->
  files (world st) !! (s +:+ ".zip") = Some data ->
  sessionTTL (this st) = Some T ->
  T <> 0 ->
  later (snd (save s st)) st2 ->
  db_faults (world st2) = [] ->
  write_error (world st2) path = None ->
  let t0 := clock_js (world st) in
  let now := clock_db (world st2) in
  fst (save s st) = Returned tt
  /\ exists r,
       find_row (getSessionId s) (table_rows (world st2)) = Some r
       /\ expires_at r = Some (t0 + T * 1000)
       /\ active now r = bool_decide (now < t0 + T * 1000)
       /\ fst (sessionExists s st2) = Returned (active now r)
       /\ fst (extract s path st2)
          = (if active now r
             then Returned (archive_metadata s data t0)
             else Thrown (Error ("Failed to extract session: "
                                 +:+ "Session " +:+ s +:+ " not found or expired")))
       /\ (exists l, fst (listSessions st2) = Returned l
                     /\ (In s (List.map session l) <-> active now r = true))
       /\ fst (getSessionMetadata s st2)
          = Returned (if active now r then Some (metadata_columns r) else None).
Proof.
  intros Hpk Hns Hf Hfile Httl HT [_ Hsame] Hf2 Hwr t0 now.
  destruct (save_spec st s data Hf Hfile) as (Hres & Htb & _).
  rewrite Httl in Htb.
  assert (truthy_number (Some T) = true) as HTT.
  { simpl. apply negb_true_iff, Z.eqb_neq. exact HT. }
  rewrite HTT in Htb. simpl in Htb. rewrite <- Hsame in Htb. fold t0 in Htb.
  assert (primary_key (table_rows (world st2))) as Hpk2
    by (rewrite Htb; now apply primary_key_upsert).
  assert (namespaced (table_rows (world st2))) as Hns2
    by (rewrite Htb; now apply namespaced_upsert).
  split; [exact Hres|].
  pose proof (find_row_upsert_same (clock_db (world st)) (getSessionId s) data
                (archive_metadata s data t0) (Some (t0 + T * 1000))
                (table_rows (world st))) as Hfind.
  rewrite <- Htb in Hfind.
  set (r := upserted_row _ _ _ _ _ _) in Hfind.
  assert (expires_at r = Some (t0 + T * 1000)) as Hexp
    by (unfold r, upserted_row; now destruct (find_row _ (table_rows (world st)))).
  assert (metadata r = archive_metadata s data t0) as Hmd
    by (unfold r, upserted_row; now destruct (find_row _ (table_rows (world st)))).
  assert (active now r = bool_decide (now < t0 + T * 1000)) as Hact.
  { unfold active. rewrite Hexp. destruct (Z.ltb_spec now (t0 + T * 1000)).
    - now rewrite bool_decide_eq_true_2.
    - rewrite bool_decide_eq_false_2; [reflexivity|lia]. }
  exists r. split; [exact Hfind|]. split; [exact Hexp|]. split; [exact Hact|].
  destruct (sessionExists_spec st2 s Hf2 Hpk2) as [HsE _].
  destruct (getSessionMetadata_spec st2 s Hf2 Hpk2) as [HgM _].
  destruct (listSessions_spec st2 Hf2) as [HlS _].
  rewrite Hfind in HsE, HgM. fold now in HsE, HgM.
  split; [exact HsE|]. split; [|split; [|exact HgM]].
  - destruct (active now r) eqn:E.
    + destruct (extract_found st2 s path r Hf2 Hpk2 Hfind E Hwr) as [-> _].
      now rewrite Hmd.
    + assert (match find_row (getSessionId s) (table_rows (world st2)) with
              | Some r => active (clock_db (world st2)) r = false
              | None => True
              end) as Habs by now rewrite Hfind.
      now destruct (extract_absent st2 s path Hf2 Hpk2 Habs) as [-> _].
  - eexists. split; [exact HlS|].
    apply (listed_iff_active st2 _ s r Hf2 Hpk2 Hns2 Hfind HlS).
Qed.

(** ** Listing *)

Lemma StronglySorted_map {A B} (R : B -> B -> Prop) (f : A -> B) l :
  StronglySorted (fun x y => R (f x) (f y)) l -> StronglySorted R (List.map f l).
Proof.
  induction 1 as [|x l Hs IH Hall]; simpl; constructor; [exact IH|].
  rewrite List.Forall_forall in *. intros y Hy.
  apply List.in_map_iff in Hy as (x' & <- & Hin). auto.
Qed.

Lemma sessionExists_true st s :
  db_faults (world st) = [] ->
  primary_key (table_rows (world st)) ->
  fst (sessionExists s st) = Returned true
  <-> exists r, find_row (getSessionId s) (table_rows (world st)) = Some r
                /\ active (clock_db (world st)) r = true.
Proof.
  intros Hf Hpk. destruct (sessionExists_spec st s Hf Hpk) as [-> _].
  destruct (find_row _ _) as [r|]; split.
  - intros [= H]. now exists r.
  - intros (r' & [= <-] & ->). reflexivity.
  - discriminate.
  - intros (r' & H & _). discriminate.
Qed.

(** C8. Session [sa] is saved, then session [sb] at a later database time,
    and both are active when the list is taken.  [listSessions] returns
    the active sessions and only them (a name is listed exactly when
    [sessionExists] holds for it), by [updatedAt] descending; [sb] stands
    before [sa]; and when the table was empty before, the names are exactly
    [sb; sa].  The names are the callers' names: the prefix that
    [#getSessionId] put in front is taken off again. *)
Theorem listing_newest_first st sa sb data_a data_b st1 st2 :
  primary_key (table_rows (world st)) ->
  namespaced (table_rows (world st)) ->
  sa <> sb ->
  db_faults (world st) = [] ->
  files (world st) !! (sa +:+ ".zip") = Some data_a ->
  later (snd (save sa st)) st1 ->
  db_faults (world st1) = [] ->
  files (world st1) !! (sb +:+ ".zip") = Some data_b ->
  clock_db (world st) < clock_db (world st1) ->
  later (snd (save sb st1)) st2 ->
  db_faults (world st2) = [] ->
  fst (sessionExists sa st2) = Returned true ->
  fst (sessionExists sb st2) = Returned true ->
  exists l,
    fst (listSessions st2) = Returned l
    /\ (forall name,
          In name (List.map session l)
          <-> fst (sessionExists name st2) = Returned true)
    /\ StronglySorted (fun x y => updatedAt y <= updatedAt x) l
    /\ (exists l1 l2 l3, List.map session l = l1 ++ sb :: l2 ++ sa :: l3)
    /\ (table_rows (world st) = [] -> List.map session l = [sb; sa])
    /\ (forall name, strip_namespace (getSessionId name) = name).
Proof.
  intros Hpk Hns Hne Hf Hfa [_ Hsame1] Hf1 Hfb Hclock [_ Hsame2] Hf2 Hea Heb.
  destruct (save_spec st sa data_a Hf Hfa) as (_ & Htb1 & _).
  destruct (save_spec st1 sb data_b Hf1 Hfb) as (_ & Htb2 & _).
  rewrite <- Hsame1 in Htb1. rewrite <- Hsame2 in Htb2.
  set (tb0 := table_rows (world st)) in *.
  set (tb1 := table_rows (world st1)) in *.
  set (tb2 := table_rows (world st2)) in *.
  set (t1 := clock_db (world st)) in *.
  set (t2 := clock_db (world st1)) in *.
  set (now := clock_db (world st2)) in *.
  assert (primary_key tb1) as Hpk1 by (rewrite Htb1; now apply primary_key_upsert).
  assert (primary_key tb2) as Hpk2 by (rewrite Htb2; now apply primary_key_upsert).
  assert (namespaced tb1) as Hns1 by (rewrite Htb1; now apply namespaced_upsert).
  assert (namespaced tb2) as Hns2 by (rewrite Htb2; now apply namespaced_upsert).
  apply (sessionExists_true st2 sa Hf2 Hpk2) in Hea as (ra & Hra & Hacta).
  apply (sessionExists_true st2 sb Hf2 Hpk2) in Heb as (rb & Hrb & Hactb).
  fold tb2 in Hra, Hrb. fold now in Hacta, Hactb.
  assert (updated_at ra = t1) as Hua.
  { rewrite Htb2, find_row_upsert_other in Hra
      by (intros E; apply getSessionId_inj in E; congruence).
    rewrite Htb1, find_row_upsert_same in Hra. injection Hra as <-.
    apply updated_at_upserted. }
  assert (updated_at rb = t2) as Hub.
  { rewrite Htb2, find_row_upsert_same in Hrb. injection Hrb as <-.
    apply updated_at_upserted. }
  destruct (listSessions_spec st2 Hf2) as [Hl _]. fold tb2 now in Hl.
  eexists. split; [exact Hl|].
  pose proof (find_row_Some _ _ _ Hra) as [Hina Hida].
  pose proof (find_row_Some _ _ _ Hrb) as [Hinb Hidb].
  repeat split.
  - intros Hin. apply (listed_names st2 _ Hf2 Hl) in Hin as (r & Hin & Hact & Hname).
    apply (sessionExists_true st2 name Hf2 Hpk2). exists r. split; [|exact Hact].
    unfold namespaced in Hns2. rewrite List.Forall_forall in Hns2.
    destruct (Hns2 r Hin) as [s' Hs'].
    rewrite Hs', strip_namespace_getSessionId in Hname. subst s'.
    fold tb2. destruct (find_row (getSessionId name) tb2) as [r'|] eqn:E.
    + f_equal. symmetry. eapply primary_key_unique; eauto.
    + apply find_row_None in E. destruct E. rewrite <- Hs'. now apply List.in_map.
  - intros Hex. apply (sessionExists_true st2 name Hf2 Hpk2) in Hex as (r & Hr & Hact).
    apply (listed_names st2 _ Hf2 Hl). exists r.
    apply find_row_Some in Hr as [Hin Hid]. repeat split; auto.
    rewrite Hid. apply strip_namespace_getSessionId.
  - apply StronglySorted_map with (R := fun x y => updatedAt y <= updatedAt x).
    apply order_by_sorted.
  - destruct (sorted_newer_before ra rb
                (order_by_updated_at_desc (List.filter (active now) tb2)))
      as (l1 & l2 & l3 & Hsplit).
    + apply order_by_sorted.
    + apply order_by_In, List.filter_In. now split.
    + apply order_by_In, List.filter_In. now split.
    + lia.
    + exists (List.map session (List.map session_info l1)),
        (List.map session (List.map session_info l2)),
        (List.map session (List.map session_info l3)).
      rewrite Hsplit. rewrite !List.map_app. simpl. rewrite !List.map_app. simpl.
      rewrite Hida, Hidb, !strip_namespace_getSessionId. reflexivity.
  - intros Hempty. rewrite Hempty in Htb1. unfold upsert in Htb1. simpl in Htb1.
    rewrite Htb1 in Htb2. unfold upsert in Htb2. simpl in Htb2.
    assert (has_id (getSessionId sb)
              (inserted_row t1 (getSessionId sa) data_a
                 (archive_metadata sa data_a (clock_js (world st)))
                 (if truthy_number (sessionTTL (this st))
                  then Some (clock_js (world st)
                             + default 0 (sessionTTL (this st)) * 1000)
                  else None)) = false) as Hother.
    { apply has_id_false. simpl. intros E. apply getSessionId_inj in E. congruence. }
    rewrite Hother in Htb2. simpl in Htb2.
    rewrite Htb2 in Hra, Hrb. unfold find_row in Hra, Hrb. simpl in Hra, Hrb.
    rewrite Hother in Hrb.
    assert (has_id (getSessionId sa)
              (inserted_row t1 (getSessionId sa) data_a
                 (archive_metadata sa data_a (clock_js (world st)))
                 (if truthy_number (sessionTTL (this st))
                  then Some (clock_js (world st)
                             + default 0 (sessionTTL (this st)) * 1000)
                  else None)) = true) as Hsame by (now apply has_id_true).
    rewrite Hsame in Hra. injection Hra as Hra.
    assert (has_id (getSessionId sb)
              (inserted_row t2 (getSessionId sb) data_b
                 (archive_metadata sb data_b (clock_js (world st1)))
                 (if truthy_number (sessionTTL (this st1))
                  then Some (clock_js (world st1)
                             + default 0 (sessionTTL (this st1)) * 1000)
                  else None)) = true) as Hsameb by (now apply has_id_true).
    rewrite Hsameb in Hrb. injection Hrb as Hrb.
    rewrite Htb2, Hra, Hrb. simpl. rewrite Hacta, Hactb. simpl.
    rewrite Hua, Hub. destruct (Z.ltb_spec t2 t1); [lia|]. simpl.
    rewrite Hida, Hidb, !strip_namespace_getSessionId. reflexivity.
Qed.

(** ** The theorems at concrete inputs *)

Lemma primary_key_single r : primary_key [r].
Proof. repeat constructor. simpl. tauto. Defined.

Lemma primary_key_mixed : primary_key [stale_row; other_row].
Proof. repeat constructor; simpl; intuition discriminate. Defined.

Lemma later_moved_on st fs now : later st (moved_on st fs now).
Proof. split; reflexivity. Defined.

(** TTL 60 s, saved at time 10: at time 70000 the session is no longer
    seen, at time 50000 it still is. *)
Lemma ttl_filtering_witness :
  fst (sessionExists "s"
         (moved_on (snd (save "s" (state_with stale_row (Some 60)))) ∅ 70000))
  = Returned false
  /\ fst (sessionExists "s"
            (moved_on (snd (save "s" (state_with stale_row (Some 60)))) ∅ 50000))
     = Returned true.
Proof.
  split.
  - destruct (ttl_filtering (state_with stale_row (Some 60)) "s" 60
                [Byte.x02; Byte.x03] "out.zip"
                (moved_on (snd (save "s" (state_with stale_row (Some 60)))) ∅ 70000))
      as (_ & r & _ & _ & Hact & Hexists & _).
    + apply primary_key_single.
    + repeat constructor. exists "s". reflexivity.
    + reflexivity.
    + vm_compute. reflexivity.
    + reflexivity.
    + discriminate.
    + apply later_moved_on.
    + reflexivity.
    + reflexivity.
    + rewrite Hexists, Hact. reflexivity.
  - destruct (ttl_filtering (state_with stale_row (Some 60)) "s" 60
                [Byte.x02; Byte.x03] "out.zip"
                (moved_on (snd (save "s" (state_with stale_row (Some 60)))) ∅ 50000))
      as (_ & r & _ & _ & Hact & Hexists & _).
    + apply primary_key_single.
    + repeat constructor. exists "s". reflexivity.
    + reflexivity.
    + vm_compute. reflexivity.
    + reflexivity.
    + discriminate.
    + apply later_moved_on.
    + reflexivity.
    + reflexivity.
    + rewrite Hexists, Hact. reflexivity.
Defined.

(** Session "s" saved at time 10 and again, from another archive, at 20. *)
Lemma save_twice_one_row_witness :
  exists r1 r2,
    find_row "whatsapp-s" (table_after (save "s") (state_with fresh_row None))
    = Some r1
    /\ find_row "whatsapp-s"
         (table_after (save "s")
            (moved_on (snd (save "s" (state_with fresh_row None)))
               {[ "s.zip" := [Byte.x05] ]} 20))
       = Some r2
    /\ session_data r2 = [Byte.x05]
    /\ updated_at r1 < updated_at r2
    /\ created_at r2 = created_at r1.
Proof.
  destruct (save_twice_one_row (state_with fresh_row None) "s"
              [Byte.x02; Byte.x03] [Byte.x05]
              (moved_on (snd (save "s" (state_with fresh_row None)))
                 {[ "s.zip" := [Byte.x05] ]} 20))
    as (_ & _ & r1 & r2 & H1 & H2 & _ & _ & Hdata & Hup & Hcr).
  - apply primary_key_single.
  - reflexivity.
  - vm_compute. reflexivity.
  - apply later_moved_on.
  - reflexivity.
  - vm_compute. reflexivity.
  - vm_compute. reflexivity.
  - exists r1, r2. repeat split; assumption.
Defined.

(** The stored metadata {a:1,b:2} keeps "a" when {c:4} is merged in. *)
Lemma metadata_merged_unless_saved_witness :
  exists r',
    find_row "whatsapp-s"
      (table_after (updateSessionMetadata "s" {[ "c" := JNum 4 ]})
         (state_with fresh_row None))
    = Some r'
    /\ metadata r' !! "a" = Some (JNum 1)
    /\ metadata r' !! "c" = Some (JNum 4).
Proof.
  destruct (metadata_merged_unless_saved (state_with fresh_row None) "s" fresh_row)
    as (_ & Hmerge & _).
  - apply primary_key_single.
  - reflexivity.
  - destruct (Hmerge {[ "c" := JNum 4 ]}) as (r' & Hr' & Hkeys).
    + reflexivity.
    + reflexivity.
    + exists r'. split; [exact Hr'|]. rewrite !Hkeys. split; reflexivity.
Defined.

(** An [extract] of the stored session sends the SELECT, then the UPDATE. *)
Lemma one_statement_unless_extract_witness :
  issued (perform (CallExtract "s" "out.zip")) (state_with fresh_row None)
  = [SelectActiveById "whatsapp_sessions" ["session_data"; "metadata"] "whatsapp-s";
     TouchUpdatedAt "whatsapp_sessions" "whatsapp-s"].
Proof.
  destruct (one_statement_unless_extract (CallExtract "s" "out.zip")
              (state_with fresh_row None))
    as [_ Hsent].
  - reflexivity.
  - apply Hsent. vm_compute. reflexivity.
Defined.

(** The merge of {b:3,c:4} into the metadata {a:1,b:2} of [fresh_row]. *)
Lemma update_metadata_example_witness :
  fst (updateSessionMetadata "s" {[ "b" := JNum 3; "c" := JNum 4 ]}
         (state_with fresh_row None))
  = Returned true.
Proof.
  apply (update_metadata_example (state_with fresh_row None) "s" fresh_row).
  - reflexivity.
  - apply primary_key_single.
  - reflexivity.
  - reflexivity.
  - reflexivity.
Defined.

(** [stale_row] expired at 5; at time 10 it is not seen but is deleted. *)
Lemma delete_ignores_expiry_witness :
  fst (delete "s" (state_with stale_row None)) = Returned true
  /\ fst (sessionExists "s" (state_with stale_row None)) = Returned false.
Proof.
  destruct (delete_ignores_expiry (state_with stale_row None) "s")
    as (_ & _ & Hfound & _).
  - reflexivity.
  - apply primary_key_single.
  - destruct (Hfound stale_row) as [Hdel Hexists].
    + reflexivity.
    + split; [exact Hdel|]. apply Hexists. reflexivity.
Defined.

(** A missing archive on an initialized and on a new object, the expired
    "s" asked for, a lost connection during [save], and a database that is
    down when a new object is first used. *)
Lemma not_found_and_wrapped_errors_witness :
  fst (save "t" mixed_state) = Thrown (Error "Session file not found: t.zip")
  /\ fst (save "t" new_state) = Thrown (Error "Session file not found: t.zip")
  /\ fst (extract "s" "out.zip" mixed_state)
     = Thrown (Error "Failed to extract session: Session s not found or expired")
  /\ fst (perform (CallSave "s")
            (failing_next (mkError (Some "ECONNRESET") "connection lost")
               (state_with fresh_row None)))
     = Thrown (Error "Failed to save session: connection lost")
  /\ fst (perform (CallDelete "s")
            (failing_next (mkError (Some "ECONNREFUSED") "connect refused") new_state))
     = Thrown (Error "Failed to initialize database: connect refused").
Proof.
  split; [|split; [|split; [|split]]].
  - destruct (not_found_and_wrapped_errors mixed_state) as [_ Hready].
    destruct Hready as (Hmissing & _); [left; reflexivity|].
    apply (Hmissing "t"). vm_compute. reflexivity.
  - destruct (not_found_and_wrapped_errors new_state) as [_ Hready].
    destruct Hready as (Hmissing & _); [right; reflexivity|].
    apply (Hmissing "t"). vm_compute. reflexivity.
  - destruct (not_found_and_wrapped_errors mixed_state) as [_ Hready].
    destruct Hready as (_ & Habsent & _); [left; reflexivity|].
    apply (Habsent "s" "out.zip").
    + reflexivity.
    + apply primary_key_mixed.
    + reflexivity.
  - destruct (not_found_and_wrapped_errors
                (failing_next (mkError (Some "ECONNRESET") "connection lost")
                   (state_with fresh_row None)))
      as [_ Hready].
    destruct Hready as (_ & _ & Hwrapped & _); [left; reflexivity|].
    apply (Hwrapped (CallSave "s") (mkError (Some "ECONNRESET") "connection lost") []).
    + reflexivity.
    + discriminate.
    + intros s [= <-]. split; [|discriminate].
      exists [Byte.x02; Byte.x03]. vm_compute. reflexivity.
  - destruct (not_found_and_wrapped_errors
                (failing_next (mkError (Some "ECONNREFUSED") "connect refused")
                   new_state))
      as [Hinit _].
    apply (Hinit (CallDelete "s") (mkError (Some "ECONNREFUSED") "connect refused") []).
    + reflexivity.
    + reflexivity.
    + discriminate.
Defined.

(** A full disk while [fresh_row] is extracted. *)
Lemma extract_write_failure_leaves_row_witness :
  fst (extract "s" "out.zip"
         (refusing_write "out.zip" (mkError (Some "ENOSPC") "no space left on device")
            (state_with fresh_row None)))
  = Thrown (Error "Failed to extract session: no space left on device")
  /\ find_row "whatsapp-s"
       (table_after (extract "s" "out.zip")
          (refusing_write "out.zip"
             (mkError (Some "ENOSPC") "no space left on device")
             (state_with fresh_row None)))
     = Some fresh_row.
Proof.
  destruct (extract_write_failure_leaves_row
              (refusing_write "out.zip"
                 (mkError (Some "ENOSPC") "no space left on device")
                 (state_with fresh_row None))
              "s" "out.zip" fresh_row)
    as (Hfail & _).
  - reflexivity.
  - apply primary_key_single.
  - reflexivity.
  - reflexivity.
  - destruct (Hfail (mkError (Some "ENOSPC") "no space left on device"))
      as (Hres & _ & Hrow & _).
    + reflexivity.
    + split; [exact Hres|exact Hrow].
Defined.

(** From the empty table: "a" saved at time 1, "b" at time 2, listed at 3. *)
Lemma listing_newest_first_witness :
  exists l,
    fst (listSessions
           (moved_on
              (snd (save "b"
                      (moved_on
                         (snd (save "a"
                                 {| this := ready_store None;
                                    world := calm_world [] {[ "a.zip" := [Byte.x01] ]} 1 |}))
                         {[ "b.zip" := [Byte.x02] ]} 2)))
              ∅ 3))
    = Returned l
    /\ List.map session l = ["b"; "a"].
Proof.
  destruct (listing_newest_first
              {| this := ready_store None;
                 world := calm_world [] {[ "a.zip" := [Byte.x01] ]} 1 |}
              "a" "b" [Byte.x01] [Byte.x02]
              (moved_on
                 (snd (save "a"
                         {| this := ready_store None;
                            world := calm_world [] {[ "a.zip" := [Byte.x01] ]} 1 |}))
                 {[ "b.zip" := [Byte.x02] ]} 2)
              (moved_on
                 (snd (save "b"
                         (moved_on
                            (snd (save "a"
                                    {| this := ready_store None;
                                       world := calm_world [] {[ "a.zip" := [Byte.x01] ]} 1 |}))
                            {[ "b.zip" := [Byte.x02] ]} 2)))
                 ∅ 3))
    as (l & Hl & _ & _ & _ & Hnames & _).
  - constructor.
  - constructor.
  - discriminate.
  - reflexivity.
  - vm_compute. reflexivity.
  - apply later_moved_on.
  - reflexivity.
  - vm_compute. reflexivity.
  - vm_compute. reflexivity.
  - apply later_moved_on.
  - reflexivity.
  - vm_compute. reflexivity.
  - vm_compute. reflexivity.
  - exists l. split; [exact Hl|]. apply Hnames. reflexivity.
Defined.

(** * Further properties of the class *)

(** ** The constructor *)

(** X1. The constructor fails exactly when the options carry neither a
    pool nor connection parameters, and then with the message of line 11. *)
Theorem constructor_fails_iff_nothing_to_connect options :
  (forall e, constructor options = inl e ->
             e = Error "Either pool or connectionConfig must be provided")
  /\ ((exists e, constructor options = inl e)
      <-> opt_pool options = None /\ opt_connectionConfig options = None).
Proof.
  unfold constructor.
  destruct (opt_pool options) as [p|], (opt_connectionConfig options) as [c|];
    simpl; (split; [intros e; congruence|]); split;
    try (intros [e He]; discriminate); try (intros [? ?]; discriminate);
    eauto.
Qed.

(** X2. Every constructed store starts with the schema flag off, has a
    non-empty table name (the default one when none or the empty one was
    given) and never a TTL of zero; [new Pool] was evaluated once, on the
    connection parameters, exactly when no pool was given. *)
Theorem constructed_store_shape options self built :
  constructor options = inr (self, built) ->
  initialized self = false
  /\ tableName self <> ""
  /\ (truthy_string (opt_tableName options) = false ->
      tableName self = "whatsapp_sessions")
  /\ (forall name, opt_tableName options = Some name -> name <> "" ->
                   tableName self = name)
  /\ sessionTTL self <> Some 0
  /\ (truthy_number (opt_sessionTTL options) = false -> sessionTTL self = None)
  /\ match opt_pool options with
     | Some p => pool self = p /\ built = []
     | None => pool self = NewPool (opt_connectionConfig options)
               /\ built = [opt_connectionConfig options]
     end.
Proof.
  unfold constructor. destruct (_ && _); [discriminate|].
  assert (forall tbl, (if truthy_string tbl then default "" tbl
                       else "whatsapp_sessions") <> "") as Hne.
  { intros [[|c n]|]; simpl; discriminate. }
  destruct (opt_pool options) as [p|]; intros [= <- <-]; simpl;
    (split; [reflexivity|]); (split; [apply Hne|]);
    (split; [now intros ->|]);
    (split; [intros name -> Hname; destruct name; [congruence|reflexivity]|]);
    (split; [destruct (opt_sessionTTL options) as [n|]; simpl;
             [destruct (Z.eqb_spec n 0); simpl; congruence|discriminate]|]);
    (split; [now intros ->|]); split; reflexivity.
Qed.

(** X3. A store constructed with [sessionTTL: 0], or with none, saves
    sessions that never expire: at every later database time the saved
    session is still seen by [sessionExists]. *)
Theorem zero_ttl_never_expires options self built st s data st2 :
  constructor options = inr (self, built) ->
  opt_sessionTTL options = Some 0 \/ opt_sessionTTL options = None ->
  this st = self ->
  primary_key (table_rows (world st)) ->
  db_faults (world st) = [] ->
  files (world st) !! (s +:+ ".zip") = Some data ->
  later (snd (save s st)) st2 ->
  db_faults (world st2) = [] ->
  fst (save s st) = Returned tt
  /\ fst (sessionExists s st2) = Returned true
  /\ exists r, find_row (getSessionId s) (table_rows (world st2)) = Some r
               /\ expires_at r = None.
Proof.
  intros Hctor Httl Hthis Hpk Hf Hfile [_ Hsame] Hf2.
  assert (truthy_number (sessionTTL (this st)) = false) as Hno.
  { rewrite Hthis. unfold constructor in Hctor.
    destruct (_ && _); [discriminate|].
    destruct (opt_pool options); injection Hctor as <- _; simpl;
      destruct Httl as [-> | ->]; reflexivity. }
  destruct (save_spec st s data Hf Hfile) as (Hres & Htb & _).
  rewrite Hno, <- Hsame in Htb.
  assert (primary_key (table_rows (world st2))) as Hpk2
    by (rewrite Htb; now apply primary_key_upsert).
  pose proof (find_row_upsert_same (clock_db (world st)) (getSessionId s) data
                (archive_metadata s data (clock_js (world st))) None
                (table_rows (world st))) as Hfind.
  rewrite <- Htb in Hfind.
  set (r := upserted_row _ _ _ _ _ _) in Hfind.
  assert (expires_at r = None) as Hexp
    by (unfold r, upserted_row; now destruct (find_row _ (table_rows (world st)))).
  split; [exact Hres|]. split; [|now exists r].
  destruct (sessionExists_spec st2 s Hf2 Hpk2) as [-> _].
  rewrite Hfind. unfold active. now rewrite Hexp.
Qed.

(** ** The schema, created lazily *)

(** X4. On an object whose schema flag is off and a database that answers,
    every call first sends the schema statement, sets the flag, and then
    does exactly what it does on an object whose flag was on: same result,
    same table, same files, same statements after the first. *)
Theorem schema_created_on_first_call op st :
  initialized (this st) = false ->
  db_faults (world st) = [] ->
  op <> CallClose ->
  fst (perform op st) = fst (perform op (schema_ready st))
  /\ table_after (perform op) st = table_after (perform op) (schema_ready st)
  /\ files (world (snd (perform op st)))
     = files (world (snd (perform op (schema_ready st))))
  /\ issued (perform op) st
     = CreateSchema (tableName (this st)) :: issued (perform op) (schema_ready st)
  /\ initialized (this (snd (perform op st))) = true.
Proof.
  unfold table_after, issued, schema_ready, initialized_store. split_state st.
  intros -> -> Hop.
  destruct op; try congruence; unfold_method; repeat split; case_split; cbn;
    rewrite <- ?app_assoc, ?drop_app_length, ?drop_all; reflexivity.
Qed.

(** X5. When the schema statement fails, the call raises the failure in
    the context of the initialization, its own statement is never sent, the
    table and the files are untouched, and the flag stays off: the next
    call, if the database then answers, sends the schema statement again
    and sets the flag. *)
Theorem schema_failure_is_surfaced_and_retried op st cause rest :
  initialized (this st) = false ->
  db_faults (world st) = Some cause :: rest ->
  op <> CallClose ->
  fst (perform op st)
  = Thrown (Error ("Failed to initialize database: " +:+ message cause))
  /\ issued (perform op) st = [CreateSchema (tableName (this st))]
  /\ table_after (perform op) st = table_rows (world st)
  /\ files (world (snd (perform op st))) = files (world st)
  /\ this (snd (perform op st)) = this st
  /\ db_faults (world (snd (perform op st))) = rest
  /\ (rest = [] ->
      forall op', op' <> CallClose ->
        head (issued (perform op') (snd (perform op st)))
        = Some (CreateSchema (tableName (this st)))
        /\ initialized (this (snd (perform op' (snd (perform op st))))) = true).
Proof.
  intros Hinit Hf Hop.
  assert (snd (perform op st)
          = with_world (fun w =>
              {| table_rows := table_rows w; files := files w;
                 write_error := write_error w; clock_js := clock_js w;
                 clock_db := clock_db w; db_faults := rest;
                 log := log w ++ [CreateSchema (tableName (this st))];
                 pool_ended := pool_ended w |}) st
          /\ fst (perform op st)
             = Thrown (Error ("Failed to initialize database: " +:+ message cause)))
    as [Hst Hres].
  { split_state st. subst init faults.
    destruct op; try congruence; unfold_method; cbn; split; reflexivity. }
  unfold table_after, issued. rewrite Hst, Hres. clear Hst Hres.
  split_state st. subst init faults. rewrite drop_app_length.
  repeat (split; [reflexivity|]). intros -> op' Hop'.
  destruct op'; try congruence; unfold_method; split; case_split; cbn;
    rewrite <- ?app_assoc, ?(app_assoc lg [CreateSchema tbl]), ?drop_app_length;
    reflexivity.
Qed.

(** ** Expired rows: cleanup and statistics *)

Lemma active_not_expired now r : negb (expired now r) = active now r.
Proof.
  unfold expired, active. destruct (expires_at r) as [e|]; [|reflexivity].
  destruct (Z.leb_spec e now), (Z.ltb_spec now e); simpl; auto; lia.
Qed.

Lemma delete_expired_keeps_active now tb :
  delete_where (expired now) tb = List.filter (active now) tb.
Proof.
  unfold delete_where. apply List.filter_ext. intros r. apply active_not_expired.
Qed.

Lemma count_partition now tb :
  length tb = (count_where (active now) tb + count_where (expired now) tb)%nat.
Proof.
  unfold count_where. induction tb as [|r tb IH]; simpl; [reflexivity|].
  rewrite <- (active_not_expired now r).
  destruct (expired now r); simpl; lia.
Qed.

Lemma filter_idem {A} (p : A -> bool) l :
  List.filter p (List.filter p l) = List.filter p l.
Proof.
  induction l as [|x l IH]; simpl; [reflexivity|].
  destruct (p x) eqn:E; simpl; [rewrite E; now f_equal|exact IH].
Qed.

Lemma filter_filter_comm {A} (p q : A -> bool) l :
  List.filter p (List.filter q l) = List.filter q (List.filter p l).
Proof.
  induction l as [|x l IH]; simpl; [reflexivity|].
  destruct (p x) eqn:Ep, (q x) eqn:Eq; simpl; rewrite ?Ep, ?Eq, IH; reflexivity.
Qed.

Lemma no_expired_among_active now tb :
  count_where (expired now) (List.filter (active now) tb) = 0%nat.
Proof.
  unfold count_where. induction tb as [|r tb IH]; simpl; [reflexivity|].
  destruct (active now r) eqn:E; simpl; [|exact IH].
  rewrite <- active_not_expired in E. apply negb_true_iff in E. now rewrite E.
Qed.

Lemma cleanupExpiredSessions_spec st :
  db_faults (world st) = [] ->
  fst (cleanupExpiredSessions st)
  = Returned (count_where (expired (clock_db (world st))) (table_rows (world st)))
  /\ table_after cleanupExpiredSessions st
     = List.filter (active (clock_db (world st))) (table_rows (world st))
  /\ clock_db (world (snd (cleanupExpiredSessions st))) = clock_db (world st)
  /\ db_faults (world (snd (cleanupExpiredSessions st))) = [].
Proof.
  unfold table_after. split_state st. intros ->. unfold_method.
  destruct init; cbn; rewrite delete_expired_keeps_active; auto.
Qed.

(** X6. [cleanupExpiredSessions] removes the expired rows and no other:
    the active rows stay, in their order and unchanged; it returns the
    number of rows it removed; and a second cleanup at the same time
    removes nothing and returns 0. *)
Theorem cleanup_removes_exactly_the_expired st :
  db_faults (world st) = [] ->
  let now := clock_db (world st) in
  let tb := table_rows (world st) in
  let tb' := table_after cleanupExpiredSessions st in
  exists n,
    fst (cleanupExpiredSessions st) = Returned n
    /\ length tb = (n + length tb')%nat
    /\ tb' = List.filter (active now) tb
    /\ (forall r, In r tb' <-> In r tb /\ active now r = true)
    /\ (forall r, In r tb -> expired now r = true -> ~ In r tb')
    /\ fst (cleanupExpiredSessions (snd (cleanupExpiredSessions st))) = Returned 0%nat
    /\ table_after cleanupExpiredSessions (snd (cleanupExpiredSessions st)) = tb'.
Proof.
  intros Hf now tb tb'.
  destruct (cleanupExpiredSessions_spec st Hf) as (Hres & Htb & Hclock & Hf').
  destruct (cleanupExpiredSessions_spec _ Hf') as (Hres2 & Htb2 & _).
  fold now tb in Hres, Htb. fold tb' in Htb.
  unfold table_after in Htb2. fold (table_after cleanupExpiredSessions st) in Htb2, Hres2.
  fold tb' in Htb2, Hres2. rewrite Hclock in Htb2, Hres2. fold now in Htb2, Hres2.
  eexists. split; [exact Hres|]. repeat split.
  - rewrite (count_partition now tb), Htb. unfold count_where. lia.
  - exact Htb.
  - rewrite Htb in H. now apply List.filter_In in H.
  - rewrite Htb in H. now apply List.filter_In in H.
  - intros [Hin Hact]. rewrite Htb. now apply List.filter_In.
  - intros r Hin Hexp Hin'. rewrite Htb in Hin'. apply List.filter_In in Hin' as [_ Hact].
    rewrite <- active_not_expired, Hexp in Hact. discriminate.
  - rewrite Hres2, Htb. f_equal. apply no_expired_among_active.
  - unfold table_after. rewrite Htb2, Htb. apply filter_idem.
Qed.

Lemma sessionExists_result st s :
  db_faults (world st) = [] ->
  fst (sessionExists s st)
  = Returned (0 <? length (List.filter
                             (active_with_id (clock_db (world st)) (getSessionId s))
                             (table_rows (world st))))%nat.
Proof.
  split_state st. intros ->. unfold_method. destruct init; reflexivity.
Qed.

Lemma getSessionMetadata_result st s :
  db_faults (world st) = [] ->
  fst (getSessionMetadata s st)
  = Returned
      (let found := List.filter
                      (active_with_id (clock_db (world st)) (getSessionId s))
                      (table_rows (world st)) in
       if (0 <? length found)%nat then metadata_columns <$> head found else None).
Proof.
  split_state st. intros ->. unfold_method. destruct init; reflexivity.
Qed.

Lemma active_with_id_of_active now id tb :
  List.filter (active_with_id now id) (List.filter (active now) tb)
  = List.filter (active_with_id now id) tb.
Proof.
  induction tb as [|r tb IH]; simpl; [reflexivity|].
  unfold active_with_id at 2. destruct (active now r) eqn:E; simpl.
  - unfold active_with_id at 1. rewrite E. now rewrite IH.
  - rewrite andb_false_r. exact IH.
Qed.

(** X7. A cleanup cannot be seen through the calls that respect expiry:
    right after it, [sessionExists], [getSessionMetadata] and
    [listSessions] answer what they answered right before it. *)
Theorem cleanup_is_invisible_to_reads st s :
  db_faults (world st) = [] ->
  let st' := snd (cleanupExpiredSessions st) in
  fst (sessionExists s st') = fst (sessionExists s st)
  /\ fst (getSessionMetadata s st') = fst (getSessionMetadata s st)
  /\ fst (listSessions st') = fst (listSessions st).
Proof.
  intros Hf st'.
  destruct (cleanupExpiredSessions_spec st Hf) as (_ & Htb & Hclock & Hf').
  fold st' in Hclock, Hf'. unfold table_after in Htb. fold st' in Htb.
  rewrite (sessionExists_result st' s Hf'), (sessionExists_result st s Hf).
  rewrite (getSessionMetadata_result st' s Hf'), (getSessionMetadata_result st s Hf).
  destruct (listSessions_spec st' Hf') as [-> _].
  destruct (listSessions_spec st Hf) as [-> _].
  rewrite Hclock, Htb, active_with_id_of_active, filter_idem. auto.
Qed.

Lemma getStats_spec st :
  db_faults (world st) = [] ->
  fst (getStats st)
  = Returned (Some (stats_of (clock_db (world st)) (table_rows (world st))))
  /\ table_after getStats st = table_rows (world st).
Proof.
  unfold table_after. split_state st. intros ->. unfold_method.
  destruct init; cbn; auto.
Qed.

(** X8. [getStats] counts every row once as active or once as expired:
    the total is the number of rows and equals active plus expired; the
    active count is the length of what [listSessions] returns at that
    time; right after a cleanup the expired count is 0.  The table is not
    changed. *)
Theorem stats_count_every_row_once st :
  db_faults (world st) = [] ->
  exists stats l,
    fst (getStats st) = Returned (Some stats)
    /\ total_sessions stats = length (table_rows (world st))
    /\ total_sessions stats = (active_sessions stats + expired_sessions stats)%nat
    /\ fst (listSessions st) = Returned l
    /\ length l = active_sessions stats
    /\ table_after getStats st = table_rows (world st)
    /\ exists stats',
         fst (getStats (snd (cleanupExpiredSessions st))) = Returned (Some stats')
         /\ expired_sessions stats' = 0%nat
         /\ active_sessions stats' = active_sessions stats
         /\ total_sessions stats' = active_sessions stats.
Proof.
  intros Hf.
  destruct (getStats_spec st Hf) as [Hres Htb].
  destruct (listSessions_spec st Hf) as [Hl _].
  destruct (cleanupExpiredSessions_spec st Hf) as (_ & Htb' & Hclock & Hf').
  destruct (getStats_spec _ Hf') as [Hres' _].
  unfold table_after in Htb'. rewrite Htb', Hclock in Hres'.
  set (now := clock_db (world st)) in *. set (tb := table_rows (world st)) in *.
  eexists. eexists. split; [exact Hres|]. split; [reflexivity|].
  split; [apply count_partition|]. split; [exact Hl|].
  split.
  { rewrite List.length_map. unfold stats_of, count_where. simpl.
    apply Permutation_length. symmetry. apply order_by_perm. }
  split; [exact Htb|].
  eexists. split; [exact Hres'|]. simpl. split; [apply no_expired_among_active|].
  unfold count_where. rewrite filter_idem. auto.
Qed.

Lemma fold_min_le x xs y :
  In y (x :: xs) -> List.fold_right Z.min x xs <= y.
Proof.
  induction xs as [|z xs IH]; simpl.
  - intros [->|[]]. lia.
  - intros [->|[->|Hin]]; [| |]; try (specialize (IH (or_introl eq_refl))); try lia.
    specialize (IH (or_intror Hin)). lia.
Qed.

Lemma fold_max_ge x xs y :
  In y (x :: xs) -> y <= List.fold_right Z.max x xs.
Proof.
  induction xs as [|z xs IH]; simpl.
  - intros [->|[]]. lia.
  - intros [->|[->|Hin]]; [| |]; try (specialize (IH (or_introl eq_refl))); try lia.
    specialize (IH (or_intror Hin)). lia.
Qed.

Lemma fold_min_In x xs : In (List.fold_right Z.min x xs) (x :: xs).
Proof.
  induction xs as [|z xs IH]; simpl; [now left|].
  destruct (Z.min_spec z (List.fold_right Z.min x xs)) as [[_ ->]|[_ ->]].
  - right. now left.
  - destruct IH as [<-|Hin]; [now left|right; now right].
Qed.

Lemma fold_max_In x xs : In (List.fold_right Z.max x xs) (x :: xs).
Proof.
  induction xs as [|z xs IH]; simpl; [now left|].
  destruct (Z.max_spec z (List.fold_right Z.max x xs)) as [[_ ->]|[_ ->]].
  - destruct IH as [<-|Hin]; [now left|right; now right].
  - right. now left.
Qed.

(** X9. The two dates of [getStats] are taken over all rows, expired ones
    included: [oldest_session] is the [created_at] of some row and no row
    was created before it, [latest_activity] is the [updated_at] of some
    row and no row was updated after it; on an empty table both, and the
    average size, are null. *)
Theorem stats_dates_span_all_rows st :
  db_faults (world st) = [] ->
  exists stats,
    fst (getStats st) = Returned (Some stats)
    /\ (table_rows (world st) = [] ->
        oldest_session stats = None /\ latest_activity stats = None
        /\ avg_session_size stats = None)
    /\ (table_rows (world st) <> [] ->
        exists oldest latest,
          oldest_session stats = Some oldest
          /\ latest_activity stats = Some latest
          /\ (exists r, In r (table_rows (world st)) /\ created_at r = oldest)
          /\ (exists r, In r (table_rows (world st)) /\ updated_at r = latest)
          /\ forall r, In r (table_rows (world st)) ->
                       oldest <= created_at r /\ updated_at r <= latest).
Proof.
  intros Hf. destruct (getStats_spec st Hf) as [Hres _].
  eexists. split; [exact Hres|].
  destruct (table_rows (world st)) as [|r0 tb]; split; try congruence.
  - intros _. repeat split.
  - intros _. simpl. eexists. eexists. split; [reflexivity|]. split; [reflexivity|].
    repeat split.
    + pose proof (fold_min_In (created_at r0) (List.map created_at tb)) as Hin.
      change (created_at r0 :: List.map created_at tb)
        with (List.map created_at (r0 :: tb)) in Hin.
      apply List.in_map_iff in Hin as (r & Hr & Hin). now exists r.
    + pose proof (fold_max_In (updated_at r0) (List.map updated_at tb)) as Hin.
      change (updated_at r0 :: List.map updated_at tb)
        with (List.map updated_at (r0 :: tb)) in Hin.
      apply List.in_map_iff in Hin as (r & Hr & Hin). now exists r.
    + apply fold_min_le.
      change (created_at r0 :: List.map created_at tb)
        with (List.map created_at (r0 :: tb)). now apply List.in_map.
    + apply fold_max_ge.
      change (updated_at r0 :: List.map updated_at tb)
        with (List.map updated_at (r0 :: tb)). now apply List.in_map.
Qed.

(** ** Saving and reading back *)

(** X10. Round trip: what [save] read from [<name>.zip] is what a later
    [extract] of the still active session writes to the destination, byte
    for byte, and the metadata [extract] returns carries the file name and
    the byte length of that archive. *)
Theorem save_then_extract_round_trip st s data path st2 r :
  primary_key (table_rows (world st)) ->
  db_faults (world st) = [] ->
  files (world st) !! (s +:+ ".zip") = Some data ->
  later (snd (save s st)) st2 ->
  db_faults (world st2) = [] ->
  write_error (world st2) path = None ->
  find_row (getSessionId s) (table_rows (world st2)) = Some r ->
  active (clock_db (world st2)) r = true ->
  exists md,
    fst (extract s path st2) = Returned md
    /\ files (world (snd (extract s path st2))) !! path = Some data
    /\ md !! "size" = Some (JNum (Z.of_nat (length data)))
    /\ md !! "originalFilename" = Some (JStr (s +:+ ".zip"))
    /\ md !! "lastModified" = Some (JNum (clock_js (world st))).
Proof.
  intros Hpk Hf Hfile [_ Hsame] Hf2 Hwr Hfind Hact.
  destruct (save_spec st s data Hf Hfile) as (_ & Htb & _).
  rewrite <- Hsame in Htb.
  assert (primary_key (table_rows (world st2))) as Hpk2
    by (rewrite Htb; now apply primary_key_upsert).
  destruct (extract_found st2 s path r Hf2 Hpk2 Hfind Hact Hwr) as (Hres & _ & Hfs).
  rewrite Htb, find_row_upsert_same in Hfind. injection Hfind as Hr.
  assert (session_data r = data /\ metadata r
          = archive_metadata s data (clock_js (world st))) as [Hd Hm].
  { rewrite <- Hr. unfold upserted_row. now destruct (find_row _ _). }
  exists (metadata r). split; [exact Hres|].
  split; [rewrite Hfs, Hd; apply lookup_insert_eq|].
  rewrite Hm. unfold archive_metadata. repeat split.
Qed.

Lemma update_where_none p f tb :
  (forall r, In r tb -> p r = false) -> update_where p f tb = tb.
Proof.
  unfold update_where. induction tb as [|r tb IH]; simpl; [reflexivity|].
  intros H. rewrite (H r (or_introl eq_refl)). f_equal. apply IH. auto.
Qed.

(** X11. [updateSessionMetadata] on a session that is expired or not
    stored returns false and changes nothing: neither the metadata nor
    [updated_at] of any row. *)
Theorem update_metadata_of_inactive_session st s md :
  db_faults (world st) = [] ->
  primary_key (table_rows (world st)) ->
  match find_row (getSessionId s) (table_rows (world st)) with
  | Some r => active (clock_db (world st)) r = false
  | None => True
  end ->
  fst (updateSessionMetadata s md st) = Returned false
  /\ table_after (updateSessionMetadata s md) st = table_rows (world st).
Proof.
  intros Hf Hpk Hinactive.
  destruct (updateSessionMetadata_spec st s md Hf) as [-> ->].
  pose proof (select_active_by_id (clock_db (world st)) (getSessionId s)
                (table_rows (world st)) Hpk) as Hsel.
  assert (List.filter (active_with_id (clock_db (world st)) (getSessionId s))
            (table_rows (world st)) = []) as Hnone.
  { rewrite Hsel. destruct (find_row _ _); [now rewrite Hinactive|reflexivity]. }
  split.
  - unfold count_where. now rewrite Hnone.
  - apply update_where_none. intros r Hin.
    destruct (active_with_id _ _ r) eqn:E; [|reflexivity].
    assert (In r []) as [].
    rewrite <- Hnone. now apply List.filter_In.
Qed.

(** ** What a call leaves alone *)

(** X12. A call about one session never touches the row of another name,
    whatever the database does: for every call with a session argument,
    the row stored under any other id is the same before and after. *)
Theorem other_sessions_untouched op st s id' :
  target op = Some s ->
  id' <> getSessionId s ->
  find_row id' (table_after (perform op) st) = find_row id' (table_rows (world st)).
Proof.
  intros Htarget Hne.
  destruct (perform_table_change op st); try reflexivity;
    simpl in Htarget; try discriminate; injection Htarget as ->.
  - now apply find_row_upsert_other.
  - rewrite find_row_update_where by reflexivity.
    destruct (find_row id' _) as [r|] eqn:E; [|reflexivity]. simpl.
    apply find_row_Some in E as [_ E].
    assert (has_id (getSessionId s) r = false) as -> by (apply has_id_false; congruence).
    reflexivity.
  - now apply find_row_delete_where_other.
  - rewrite find_row_update_where by reflexivity.
    destruct (find_row id' _) as [r|] eqn:E; [|reflexivity]. simpl.
    apply find_row_Some in E as [_ E]. unfold active_with_id.
    assert (has_id (getSessionId s) r = false) as -> by (apply has_id_false; congruence).
    reflexivity.
Qed.

(** X13. Only [save] of a session changes its blob, its expiry or what was
    there of its creation time.  For every other call, if the row of the
    session is there before and after, its [session_data], [created_at]
    and [expires_at] are the same, and its [updated_at] is the same or has
    become the time of the statement; so reading a session or updating its
    metadata never prolongs its life. *)
Theorem only_save_changes_blob_and_expiry op st s r r' :
  primary_key (table_rows (world st)) ->
  op <> CallSave s ->
  find_row (getSessionId s) (table_rows (world st)) = Some r ->
  find_row (getSessionId s) (table_after (perform op) st) = Some r' ->
  session_data r' = session_data r
  /\ created_at r' = created_at r
  /\ expires_at r' = expires_at r
  /\ (updated_at r' = updated_at r \/ updated_at r' = clock_db (world st)).
Proof.
  intros Hpk Hop Hfind Hfind'.
  destruct (perform_table_change op st).
  - assert (r' = r) as -> by congruence. auto.
  - rewrite find_row_upsert_other in Hfind'.
    + assert (r' = r) as -> by congruence. auto.
    + intros E. apply getSessionId_inj in E. congruence.
  - rewrite find_row_update_where, Hfind in Hfind' by reflexivity.
    simpl in Hfind'. injection Hfind' as <-. destruct (has_id _ r); simpl; auto.
  - destruct (decide (getSessionId s0 = getSessionId s)) as [E|E].
    + rewrite E, find_row_delete_where_same in Hfind'. discriminate.
    + rewrite find_row_delete_where_other in Hfind' by congruence.
      assert (r' = r) as -> by congruence. auto.
  - rewrite find_row_update_where, Hfind in Hfind' by reflexivity.
    simpl in Hfind'. injection Hfind' as <-.
    destruct (active_with_id _ _ r); simpl; auto.
  - rewrite (find_row_delete_where_kept _ _ _ _ _ Hpk Hfind Hfind'). auto.
Qed.

(** X14. [sessionExists], [listSessions], [getSessionMetadata], [getStats]
    and [close] change neither the table nor the files, whether the
    database answers or fails. *)
Theorem reads_change_nothing op st :
  only_reads op = true ->
  table_after (perform op) st = table_rows (world st)
  /\ files (world (snd (perform op st))) = files (world st).
Proof.
  unfold table_after. split_state st.
  destruct op; try discriminate; intros _;
    unfold_method; split; case_split; reflexivity.
Qed.

(** X15. [save] looks for the archive before it talks to the table: when
    [<name>.zip] is missing and the schema exists, no statement is sent and
    the table is as before, so the session stored earlier under the name
    stays as it was. *)
Theorem save_without_archive_sends_nothing st s :
  initialized (this st) = true ->
  files (world st) !! (s +:+ ".zip") = None ->
  issued (save s) st = []
  /\ table_after (save s) st = table_rows (world st)
  /\ files (world (snd (save s st))) = files (world st)
  /\ db_faults (world (snd (save s st))) = db_faults (world st).
Proof.
  unfold table_after, issued. split_state st. intros -> Hfile.
  unfold_method. cbn. rewrite Hfile. cbn. rewrite drop_all. auto.
Qed.

(** ** Deleting and extracting *)

(** X16. After a [delete] the session is forgotten: [sessionExists] is
    false, [getSessionMetadata] is null, a second [delete] returns false;
    and a later [save] of the name makes a new row whose [created_at] is
    the time of that save, not the one of the deleted row. *)
Theorem delete_forgets_the_session st s st2 data :
  db_faults (world st) = [] ->
  primary_key (table_rows (world st)) ->
  later (snd (delete s st)) st2 ->
  db_faults (world st2) = [] ->
  files (world st2) !! (s +:+ ".zip") = Some data ->
  fst (sessionExists s st2) = Returned false
  /\ fst (getSessionMetadata s st2) = Returned None
  /\ fst (delete s st2) = Returned false
  /\ exists r,
       find_row (getSessionId s) (table_after (save s) st2) = Some r
       /\ created_at r = clock_db (world st2)
       /\ updated_at r = clock_db (world st2)
       /\ session_data r = data.
Proof.
  intros Hf Hpk [_ Hsame] Hf2 Hfile.
  destruct (delete_spec st s Hf) as [_ Htb]. unfold table_after in Htb.
  rewrite <- Hsame in Htb.
  assert (primary_key (table_rows (world st2))) as Hpk2
    by (rewrite Htb; now apply primary_key_delete_where).
  assert (find_row (getSessionId s) (table_rows (world st2)) = None) as Hgone
    by (rewrite Htb; apply find_row_delete_where_same).
  destruct (sessionExists_spec st2 s Hf2 Hpk2) as [-> _].
  destruct (getSessionMetadata_spec st2 s Hf2 Hpk2) as [-> _].
  destruct (delete_spec st2 s Hf2) as [-> _].
  destruct (save_spec st2 s data Hf2 Hfile) as (_ & Htb2 & _).
  rewrite (count_has_id _ _ Hpk2), Hgone. repeat split.
  unfold table_after. rewrite Htb2, find_row_upsert_same.
  eexists. split; [reflexivity|]. unfold upserted_row. rewrite Hgone. auto.
Qed.


(** X18. [extract] is not all-or-nothing.  When the blob has been written
    and the refresh of [updated_at] then fails, [extract] raises and
    returns no metadata, the row is as it was, but the destination file
    holds the blob already. *)
Theorem extract_refresh_failure_keeps_the_file st s path r cause rest :
  initialized (this st) = true ->
  db_faults (world st) = None :: Some cause :: rest ->
  primary_key (table_rows (world st)) ->
  find_row (getSessionId s) (table_rows (world st)) = Some r ->
  active (clock_db (world st)) r = true ->
  write_error (world st) path = None ->
  fst (extract s path st)
  = Thrown (Error ("Failed to extract session: " +:+ message cause))
  /\ files (world (snd (extract s path st))) !! path = Some (session_data r)
  /\ table_after (extract s path) st = table_rows (world st).
Proof.
  intros Hinit Hf Hpk Hfind Hact Hwr.
  pose proof (select_active_by_id (clock_db (world st)) (getSessionId s)
                (table_rows (world st)) Hpk) as Hsel.
  rewrite Hfind, Hact in Hsel.
  unfold table_after. split_state st. subst init faults.
  unfold_method. cbn. unfold some_rows. cbn. rewrite Hsel. cbn. rewrite Hwr. cbn.
  repeat split. apply lookup_insert_eq.
Qed.

Lemma sorted_head_is_newest r rs :
  StronglySorted newer_first rs ->
  In r rs ->
  (forall r', In r' rs -> session_id r' = session_id r -> r' = r) ->
  (forall r', In r' rs -> session_id r' <> session_id r ->
              updated_at r' < updated_at r) ->
  head rs = Some r.
Proof.
  intros Hs Hin Hsame Hnewest. destruct rs as [|r0 rs]; [destruct Hin|]. simpl.
  destruct (decide (session_id r0 = session_id r)) as [E|Hne].
  - now rewrite (Hsame r0 (or_introl eq_refl) E).
  - exfalso. inversion Hs as [|? ? _ Hall]; subst.
    destruct Hin as [->|Hin]; [congruence|].
    rewrite List.Forall_forall in Hall. specialize (Hall r Hin).
    unfold newer_first in Hall.
    specialize (Hnewest r0 (or_introl eq_refl) Hne). lia.
Qed.

Lemma extract_found_world st s path r :
  db_faults (world st) = [] ->
  primary_key (table_rows (world st)) ->
  find_row (getSessionId s) (table_rows (world st)) = Some r ->
  active (clock_db (world st)) r = true ->
  write_error (world st) path = None ->
  db_faults (world (snd (extract s path st))) = []
  /\ clock_db (world (snd (extract s path st))) = clock_db (world st).
Proof.
  intros Hf Hpk Hfind Hact Hwr.
  pose proof (select_active_by_id (clock_db (world st)) (getSessionId s)
                (table_rows (world st)) Hpk) as Hsel.
  rewrite Hfind, Hact in Hsel.
  split_state st. subst faults. unfold_method.
  destruct init; cbn; unfold some_rows; cbn; rewrite Hsel; cbn; rewrite Hwr; cbn;
    auto.
Qed.

(** X19. An [extract] counts as activity: when it happens later than every
    [updated_at] in the table, the extracted session is the first one that
    [listSessions] then returns. *)
Theorem extracted_session_is_listed_first st s path r :
  db_faults (world st) = [] ->
  primary_key (table_rows (world st)) ->
  find_row (getSessionId s) (table_rows (world st)) = Some r ->
  active (clock_db (world st)) r = true ->
  write_error (world st) path = None ->
  (forall r', In r' (table_rows (world st)) -> updated_at r' < clock_db (world st)) ->
  exists first rest,
    fst (listSessions (snd (extract s path st))) = Returned (first :: rest)
    /\ session first = s
    /\ updatedAt first = clock_db (world st).
Proof.
  intros Hf Hpk Hfind Hact Hwr Holder.
  destruct (extract_found st s path r Hf Hpk Hfind Hact Hwr) as (_ & Htb & _).
  destruct (extract_found_world st s path r Hf Hpk Hfind Hact Hwr) as [Hf' Hclock].
  destruct (listSessions_spec _ Hf') as [Hl _].
  unfold table_after in Htb. rewrite Htb, Hclock in Hl.
  set (now := clock_db (world st)) in *. set (tb := table_rows (world st)) in *.
  set (tb' := update_where (has_id (getSessionId s)) (touch now) tb) in *.
  pose proof (find_row_Some _ _ _ Hfind) as [_ Hid].
  assert (primary_key tb') as Hpk' by now apply primary_key_update_where.
  assert (find_row (getSessionId s) tb' = Some (touch now r)) as Hfind'.
  { unfold tb'. rewrite find_row_update_where, Hfind by reflexivity. simpl.
    apply has_id_true in Hid. now rewrite Hid. }
  assert (head (order_by_updated_at_desc (List.filter (active now) tb'))
          = Some (touch now r)) as Hhead.
  { apply sorted_head_is_newest.
    - apply order_by_sorted.
    - apply order_by_In, List.filter_In. split; [|exact Hact].
      now apply find_row_Some in Hfind'.
    - intros r' Hin Hsame. apply order_by_In, List.filter_In in Hin as [Hin _].
      simpl in Hsame. rewrite Hid in Hsame.
      eapply primary_key_unique; eauto.
    - intros r' Hin Hother. apply order_by_In, List.filter_In in Hin as [Hin _].
      simpl in Hother. rewrite Hid in Hother. simpl.
      unfold tb', update_where in Hin.
      apply List.in_map_iff in Hin as (r0 & Hr0 & Hin0).
      destruct (has_id (getSessionId s) r0) eqn:E.
      + apply has_id_true in E. subst r'. simpl in Hother. congruence.
      + subst r'. now apply Holder. }
  destruct (order_by_updated_at_desc (List.filter (active now) tb'))
    as [|r1 rs]; [discriminate|].
  injection Hhead as ->. simpl in Hl.
  eexists. eexists. split; [exact Hl|]. simpl. split; [|reflexivity].
  rewrite Hid. apply strip_namespace_getSessionId.
Qed.

(** ** The example client *)

Lemma on_auth_failure_result st msg :
  initialized (this st) = true ->
  db_faults (world st) = [] ->
  fst (on_auth_failure msg st) = Returned tt
  /\ table_after (on_auth_failure msg) st
     = delete_where (has_id (getSessionId SESSION_NAME))
         (update_where
            (active_with_id (clock_db (world st)) (getSessionId SESSION_NAME))
            (merge_metadata (clock_db (world st))
               {[ "authFailureAt" := JNum (clock_js (world st));
                  "status" := JStr "failed";
                  "error" := JStr msg ]})
            (table_rows (world st))).
Proof.
  unfold table_after. split_state st. intros -> ->.
  unfold on_auth_failure. unfold_method. cbn. split; reflexivity.
Qed.

(** X20. The ['auth_failure'] handler of the example client removes the
    session whether it was active or expired, and touches no other row,
    when the database answers; but when its first statement, the metadata
    update, fails, the handler raises there and the delete is never sent:
    the invalid session stays stored. *)
Theorem auth_failure_deletes_unless_update_fails st msg :
  initialized (this st) = true ->
  (db_faults (world st) = [] ->
   fst (on_auth_failure msg st) = Returned tt
   /\ find_row (getSessionId SESSION_NAME) (table_after (on_auth_failure msg) st)
      = None
   /\ forall id', id' <> getSessionId SESSION_NAME ->
        find_row id' (table_after (on_auth_failure msg) st)
        = find_row id' (table_rows (world st)))
  /\ (forall cause rest,
        db_faults (world st) = Some cause :: rest ->
        fst (on_auth_failure msg st)
        = Thrown (Error ("Failed to update session metadata: " +:+ message cause))
        /\ table_after (on_auth_failure msg) st = table_rows (world st)
        /\ Forall (fun q => forall tbl id, q <> DeleteById tbl id)
             (issued (on_auth_failure msg) st)).
Proof.
  intros Hinit. split.
  - intros Hf. destruct (on_auth_failure_result st msg Hinit Hf) as [-> ->].
    repeat split.
    + apply find_row_delete_where_same.
    + intros id' Hne. rewrite find_row_delete_where_other by exact Hne.
      rewrite find_row_update_where by reflexivity.
      destruct (find_row id' _) as [r|] eqn:E; [|reflexivity]. simpl.
      apply find_row_Some in E as [_ E]. unfold active_with_id.
      assert (has_id (getSessionId SESSION_NAME) r = false) as ->
        by (apply has_id_false; congruence).
      reflexivity.
  - unfold table_after, issued. split_state st. subst init.
    intros cause rest ->. unfold on_auth_failure. unfold_method. cbn.
    rewrite drop_app_length. repeat split. repeat constructor. discriminate.
Qed.

(** ** Failures and agreement *)

(** X21. A call whose statement fails has no effect: once the schema
    exists, when the next query is going to fail, every call (a [save]
    finding its archive) leaves the table and the files as they were and
    has sent that one statement only. *)
Theorem failed_statement_has_no_effect op st cause rest :
  initialized (this st) = true ->
  db_faults (world st) = Some cause :: rest ->
  op <> CallClose ->
  (forall s, op = CallSave s -> is_Some (files (world st) !! (s +:+ ".zip"))) ->
  table_after (perform op) st = table_rows (world st)
  /\ files (world (snd (perform op st))) = files (world st)
  /\ length (issued (perform op) st) = 1%nat
  /\ db_faults (world (snd (perform op st))) = rest
  /\ exists e, fst (perform op st) = Thrown e.
Proof.
  unfold table_after, issued. split_state st. intros -> -> Hop Hsave.
  destruct op as [s|s|s path|s| |s|s md| | | ]; try congruence;
    try (unfold_method; cbn; rewrite drop_app_length; repeat split; eauto; fail).
  destruct (Hsave s eq_refl) as [data Hdata].
  unfold_method. cbn. rewrite Hdata. cbn. rewrite Hdata. cbn.
  destruct (truthy_number ttl); cbn;
    destruct (bool_decide _); cbn; rewrite drop_app_length; repeat split; eauto.
Qed.

(** X22. The three calls that look a session up agree.  When
    [sessionExists] is true, [getSessionMetadata] returns the record of the
    row and [extract] to a writable destination returns that record's
    metadata; when it is false, [getSessionMetadata] returns null and
    [extract] raises. *)
Theorem lookups_agree st s path :
  db_faults (world st) = [] ->
  primary_key (table_rows (world st)) ->
  write_error (world st) path = None ->
  (fst (sessionExists s st) = Returned true ->
   exists r,
     find_row (getSessionId s) (table_rows (world st)) = Some r
     /\ fst (getSessionMetadata s st) = Returned (Some (metadata_columns r))
     /\ fst (extract s path st) = Returned (metadata r))
  /\ (fst (sessionExists s st) = Returned false ->
      fst (getSessionMetadata s st) = Returned None
      /\ exists e, fst (extract s path st) = Thrown e)
  /\ (fst (sessionExists s st) = Returned true
      \/ fst (sessionExists s st) = Returned false).
Proof.
  intros Hf Hpk Hwr.
  destruct (sessionExists_spec st s Hf Hpk) as [HsE _].
  destruct (getSessionMetadata_spec st s Hf Hpk) as [HgM _].
  rewrite HsE, HgM.
  destruct (find_row (getSessionId s) (table_rows (world st))) as [r|] eqn:Hfind;
    [destruct (active (clock_db (world st)) r) eqn:Hact|]; repeat split;
    try discriminate; auto.
  - intros _. exists r. repeat split.
    now destruct (extract_found st s path r Hf Hpk Hfind Hact Hwr) as [-> _].
  - assert (match find_row (getSessionId s) (table_rows (world st)) with
            | Some r => active (clock_db (world st)) r = false
            | None => True
            end) as Habs by now rewrite Hfind.
    destruct (extract_absent st s path Hf Hpk Habs) as [-> _]. eauto.
  - assert (match find_row (getSessionId s) (table_rows (world st)) with
            | Some r => active (clock_db (world st)) r = false
            | None => True
            end) as Habs by now rewrite Hfind.
    destruct (extract_absent st s path Hf Hpk Habs) as [-> _]. eauto.
Qed.

(** X23. Saving over an expired row that no cleanup has removed replaces
    it in place: the table does not grow, the row gets the new blob, keeps
    the [created_at] of the expired row and gets an expiry counted from
    this save ([Date.now() + 1000 TTL], or NULL without a TTL).  It is then
    active exactly at the database times before that expiry: always
    without a TTL, and at the time of the save itself when the TTL is
    positive and the client clock is not behind the database clock. *)
Theorem save_revives_expired_row st s data r :
  primary_key (table_rows (world st)) ->
  db_faults (world st) = [] ->
  files (world st) !! (s +:+ ".zip") = Some data ->
  find_row (getSessionId s) (table_rows (world st)) = Some r ->
  expired (clock_db (world st)) r = true ->
  let ttl := sessionTTL (this st) in
  let t0 := clock_js (world st) in
  fst (sessionExists s st) = Returned false
  /\ exists r',
       find_row (getSessionId s) (table_after (save s) st) = Some r'
       /\ length (table_after (save s) st) = length (table_rows (world st))
       /\ session_data r' = data
       /\ created_at r' = created_at r
       /\ expires_at r'
          = (if truthy_number ttl then Some (t0 + default 0 ttl * 1000) else None)
       /\ (forall now,
             active now r' = true
             <-> truthy_number ttl = false \/ now < t0 + default 0 ttl * 1000)
       /\ (forall T, ttl = Some T -> 0 < T -> clock_db (world st) <= t0 ->
                     active (clock_db (world st)) r' = true).
Proof.
  intros Hpk Hf Hfile Hfind Hexp ttl t0.
  destruct (sessionExists_spec st s Hf Hpk) as [-> _].
  destruct (save_spec st s data Hf Hfile) as (_ & Htb & _).
  fold (table_after (save s) st) in Htb. fold ttl t0 in Htb.
  rewrite Hfind. split.
  { f_equal. rewrite <- active_not_expired, Hexp. reflexivity. }
  rewrite Htb, find_row_upsert_same, upsert_length, Hfind.
  eexists. split; [reflexivity|]. unfold upserted_row. rewrite Hfind. simpl.
  assert (forall now,
            active now
              (on_conflict_update (clock_db (world st)) data
                 (archive_metadata s data t0)
                 (if truthy_number ttl then Some (t0 + default 0 ttl * 1000) else None)
                 r) = true
            <-> truthy_number ttl = false \/ now < t0 + default 0 ttl * 1000) as Hiff.
  { intros now. unfold active. simpl. destruct (truthy_number ttl).
    - rewrite Z.ltb_lt. split; [now right|]. intros [?|?]; [discriminate|assumption].
    - split; auto. }
  repeat split; try apply Hiff.
  intros T HT Hpos Hclock. apply Hiff. right. rewrite HT. simpl. lia.
Qed.

(** ** The further properties at concrete inputs *)

(** Only connection parameters, an empty table name, a TTL of 0. *)
Lemma constructed_store_shape_witness :
  exists self,
    constructor (mkOptions None (Some (mkPoolConfig "postgres://db")) (Some "") (Some 0))
    = inr (self, [Some (mkPoolConfig "postgres://db")])
    /\ tableName self = "whatsapp_sessions"
    /\ sessionTTL self = None.
Proof.
  eexists. split; [reflexivity|].
  destruct (constructed_store_shape
              (mkOptions None (Some (mkPoolConfig "postgres://db")) (Some "") (Some 0))
              _ _ eq_refl)
    as (_ & _ & Htbl & _ & _ & Httl & _).
  split; [apply Htbl|apply Httl]; reflexivity.
Defined.

(** A store built with [sessionTTL: 0] saves "s" at time 10; at time
    1000000 the session is still there. *)
Lemma zero_ttl_never_expires_witness :
  fst (sessionExists "s"
         (moved_on
            (snd (save "s"
                    {| this := {| pool := CallerPool 0; initialized := false;
                                  tableName := "whatsapp_sessions";
                                  sessionTTL := None |};
                       world := calm_world [] archive_s 10 |}))
            ∅ 1000000))
  = Returned true.
Proof.
  destruct (zero_ttl_never_expires
              (mkOptions (Some (CallerPool 0)) None None (Some 0))
              {| pool := CallerPool 0; initialized := false;
                 tableName := "whatsapp_sessions"; sessionTTL := None |}
              []
              {| this := {| pool := CallerPool 0; initialized := false;
                            tableName := "whatsapp_sessions";
                            sessionTTL := None |};
                 world := calm_world [] archive_s 10 |}
              "s" [Byte.x02; Byte.x03]
              (moved_on
                 (snd (save "s"
                         {| this := {| pool := CallerPool 0; initialized := false;
                                       tableName := "whatsapp_sessions";
                                       sessionTTL := None |};
                            world := calm_world [] archive_s 10 |}))
                 ∅ 1000000))
    as (_ & Hexists & _).
  - reflexivity.
  - left. reflexivity.
  - reflexivity.
  - constructor.
  - reflexivity.
  - vm_compute. reflexivity.
  - apply later_moved_on.
  - reflexivity.
  - exact Hexists.
Defined.

(** The first call of a new object: the schema statement, then the SELECT. *)
Lemma schema_created_on_first_call_witness :
  issued (perform (CallSessionExists "t")) new_state
  = CreateSchema "whatsapp_sessions"
    :: issued (perform (CallSessionExists "t")) (schema_ready new_state).
Proof.
  destruct (schema_created_on_first_call (CallSessionExists "t") new_state)
    as (_ & _ & _ & Hsent & _).
  - reflexivity.
  - reflexivity.
  - discriminate.
  - exact Hsent.
Defined.

(** The database is down when a new object is first used. *)
Lemma schema_failure_is_surfaced_and_retried_witness :
  fst (perform (CallListSessions)
         (failing_next (mkError (Some "ECONNREFUSED") "connect refused") new_state))
  = Thrown (Error "Failed to initialize database: connect refused")
  /\ initialized
       (this (snd (perform (CallListSessions)
                     (failing_next (mkError (Some "ECONNREFUSED") "connect refused")
                        new_state))))
     = false.
Proof.
  destruct (schema_failure_is_surfaced_and_retried CallListSessions
              (failing_next (mkError (Some "ECONNREFUSED") "connect refused") new_state)
              (mkError (Some "ECONNREFUSED") "connect refused") [])
    as (Hres & _ & _ & _ & Hthis & _).
  - reflexivity.
  - reflexivity.
  - discriminate.
  - split; [exact Hres|]. rewrite Hthis. reflexivity.
Defined.

(** One expired row out of two. *)
Lemma cleanup_removes_exactly_the_expired_witness :
  fst (cleanupExpiredSessions mixed_state) = Returned 1%nat
  /\ table_after cleanupExpiredSessions mixed_state = [other_row].
Proof.
  destruct (cleanup_removes_exactly_the_expired mixed_state)
    as (n & Hn & _ & Htb & _).
  - reflexivity.
  - split; [|exact Htb]. rewrite Hn. vm_compute in Hn. injection Hn as <-. reflexivity.
Defined.

Lemma cleanup_is_invisible_to_reads_witness :
  fst (sessionExists "s" (snd (cleanupExpiredSessions mixed_state))) = Returned false
  /\ fst (sessionExists "t" (snd (cleanupExpiredSessions mixed_state))) = Returned true.
Proof.
  split.
  - rewrite (proj1 (cleanup_is_invisible_to_reads mixed_state "s" eq_refl)).
    reflexivity.
  - rewrite (proj1 (cleanup_is_invisible_to_reads mixed_state "t" eq_refl)).
    reflexivity.
Defined.

Lemma stats_count_every_row_once_witness :
  exists stats,
    fst (getStats mixed_state) = Returned (Some stats)
    /\ total_sessions stats = 2%nat
    /\ (active_sessions stats + expired_sessions stats = 2)%nat.
Proof.
  destruct (stats_count_every_row_once mixed_state)
    as (stats & l & Hres & Htotal & Hsum & _).
  - reflexivity.
  - exists stats. split; [exact Hres|]. split; [exact Htotal|].
    rewrite <- Hsum. exact Htotal.
Defined.

Lemma stats_dates_span_all_rows_witness :
  exists stats oldest latest,
    fst (getStats mixed_state) = Returned (Some stats)
    /\ oldest_session stats = Some oldest
    /\ latest_activity stats = Some latest
    /\ oldest <= created_at other_row
    /\ updated_at stale_row <= latest.
Proof.
  destruct (stats_dates_span_all_rows mixed_state) as (stats & Hres & _ & Hsome).
  - reflexivity.
  - destruct Hsome as (oldest & latest & Ho & Hl & _ & _ & Hbounds).
    + discriminate.
    + exists stats, oldest, latest. repeat split; try assumption.
      * apply (Hbounds other_row). right. left. reflexivity.
      * apply (Hbounds stale_row). left. reflexivity.
Defined.

(** "s" is saved at time 10 and extracted at time 20. *)
Lemma save_then_extract_round_trip_witness :
  files (world (snd (extract "s" "out.zip"
                       (moved_on (snd (save "s" mixed_state)) ∅ 20))))
  !! "out.zip"
  = Some [Byte.x02; Byte.x03].
Proof.
  destruct (save_then_extract_round_trip mixed_state "s" [Byte.x02; Byte.x03]
              "out.zip" (moved_on (snd (save "s" mixed_state)) ∅ 20)
              (upserted_row 10 "whatsapp-s" [Byte.x02; Byte.x03]
                 (archive_metadata "s" [Byte.x02; Byte.x03] 10) None
                 [stale_row; other_row]))
    as (md & _ & Hfile & _).
  - apply primary_key_mixed.
  - reflexivity.
  - vm_compute. reflexivity.
  - apply later_moved_on.
  - reflexivity.
  - reflexivity.
  - vm_compute. reflexivity.
  - reflexivity.
  - exact Hfile.
Defined.

(** The expired "s" cannot be updated. *)
Lemma update_metadata_of_inactive_session_witness :
  fst (updateSessionMetadata "s" {[ "status" := JStr "ready" ]} mixed_state)
  = Returned false
  /\ table_after (updateSessionMetadata "s" {[ "status" := JStr "ready" ]}) mixed_state
     = [stale_row; other_row].
Proof.
  apply (update_metadata_of_inactive_session mixed_state "s").
  - reflexivity.
  - apply primary_key_mixed.
  - reflexivity.
Defined.

(** Deleting "s" leaves the row of "t". *)
Lemma other_sessions_untouched_witness :
  find_row "whatsapp-t" (table_after (perform (CallDelete "s")) mixed_state)
  = Some other_row.
Proof.
  rewrite (other_sessions_untouched (CallDelete "s") mixed_state "s" "whatsapp-t").
  - reflexivity.
  - reflexivity.
  - discriminate.
Defined.

(** Updating the metadata of "t" does not move its expiry. *)
Lemma only_save_changes_blob_and_expiry_witness :
  exists r',
    find_row "whatsapp-t"
      (table_after (perform (CallUpdateSessionMetadata "t" {[ "status" := JStr "ready" ]}))
         mixed_state)
    = Some r'
    /\ expires_at r' = Some 50
    /\ created_at r' = 3.
Proof.
  eexists. split; [vm_compute; reflexivity|].
  destruct (only_save_changes_blob_and_expiry
              (CallUpdateSessionMetadata "t" {[ "status" := JStr "ready" ]})
              mixed_state "t" other_row
              (merge_metadata 10 {[ "status" := JStr "ready" ]} other_row))
    as (_ & Hcreated & Hexpires & _).
  - apply primary_key_mixed.
  - discriminate.
  - reflexivity.
  - vm_compute. reflexivity.
  - split; [exact Hexpires|exact Hcreated].
Defined.

Lemma reads_change_nothing_witness :
  table_after (perform CallGetStats) mixed_state = [stale_row; other_row].
Proof.
  apply (reads_change_nothing CallGetStats mixed_state). reflexivity.
Defined.

(** No archive of "t" on disk. *)
Lemma save_without_archive_sends_nothing_witness :
  issued (save "t") mixed_state = []
  /\ table_after (save "t") mixed_state = [stale_row; other_row].
Proof.
  destruct (save_without_archive_sends_nothing mixed_state "t") as (Hsent & Htb & _).
  - reflexivity.
  - vm_compute. reflexivity.
  - split; [exact Hsent|exact Htb].
Defined.

(** "t" is deleted at time 10 and saved again at time 30. *)
Lemma delete_forgets_the_session_witness :
  fst (sessionExists "t"
         (moved_on (snd (delete "t" mixed_state)) {[ "t.zip" := [Byte.x07] ]} 30))
  = Returned false
  /\ exists r,
       find_row "whatsapp-t"
         (table_after (save "t")
            (moved_on (snd (delete "t" mixed_state)) {[ "t.zip" := [Byte.x07] ]} 30))
       = Some r
       /\ created_at r = 30.
Proof.
  destruct (delete_forgets_the_session mixed_state "t"
              (moved_on (snd (delete "t" mixed_state)) {[ "t.zip" := [Byte.x07] ]} 30)
              [Byte.x07])
    as (Hexists & _ & _ & r & Hr & Hcreated & _).
  - reflexivity.
  - apply primary_key_mixed.
  - apply later_moved_on.
  - reflexivity.
  - vm_compute. reflexivity.
  - split; [exact Hexists|]. exists r. split; [exact Hr|exact Hcreated].
Defined.


(** The connection drops between the write and the refresh. *)
Lemma extract_refresh_failure_keeps_the_file_witness :
  fst (extract "t" "out.zip"
         (with_world (fun w =>
            {| table_rows := table_rows w; files := files w;
               write_error := write_error w; clock_js := clock_js w;
               clock_db := clock_db w;
               db_faults := [None; Some (mkError None "connection lost")];
               log := log w; pool_ended := pool_ended w |}) mixed_state))
  = Thrown (Error "Failed to extract session: connection lost")
  /\ files (world (snd (extract "t" "out.zip"
         (with_world (fun w =>
            {| table_rows := table_rows w; files := files w;
               write_error := write_error w; clock_js := clock_js w;
               clock_db := clock_db w;
               db_faults := [None; Some (mkError None "connection lost")];
               log := log w; pool_ended := pool_ended w |}) mixed_state))))
     !! "out.zip"
     = Some [Byte.x04; Byte.x05; Byte.x06].
Proof.
  destruct (extract_refresh_failure_keeps_the_file
              (with_world (fun w =>
                 {| table_rows := table_rows w; files := files w;
                    write_error := write_error w; clock_js := clock_js w;
                    clock_db := clock_db w;
                    db_faults := [None; Some (mkError None "connection lost")];
                    log := log w; pool_ended := pool_ended w |}) mixed_state)
              "t" "out.zip" other_row (mkError None "connection lost") [])
    as (Hres & Hfile & _).
  - reflexivity.
  - reflexivity.
  - apply primary_key_mixed.
  - reflexivity.
  - reflexivity.
  - reflexivity.
  - split; [exact Hres|exact Hfile].
Defined.

(** "t" is extracted at time 10; before, "u" was listed first. *)
Lemma extracted_session_is_listed_first_witness :
  (exists before,
     fst (listSessions busy_state) = Returned before
     /\ List.map session before = ["u"; "t"])
  /\ exists first rest,
       fst (listSessions (snd (extract "t" "out.zip" busy_state)))
       = Returned (first :: rest)
       /\ session first = "t"
       /\ List.map session rest = ["u"].
Proof.
  split.
  - eexists. split; [vm_compute; reflexivity|]. vm_compute. reflexivity.
  - destruct (extracted_session_is_listed_first busy_state "t" "out.zip" other_row)
      as (first & rest & Hl & Hname & _).
    + reflexivity.
    + repeat constructor; simpl; intuition discriminate.
    + reflexivity.
    + reflexivity.
    + reflexivity.
    + intros r' [<-|[<-|[<-|[]]]]; reflexivity.
    + exists first, rest. split; [exact Hl|]. split; [exact Hname|].
      vm_compute in Hl. injection Hl as _ <-. reflexivity.
Defined.

(** The example client's session is stored and the database answers. *)
Lemma auth_failure_deletes_unless_update_fails_witness :
  find_row "whatsapp-tsulabs"
    (table_after (on_auth_failure "bad session")
       {| this := ready_store (Some 2592000);
          world := calm_world
                     [ {| session_id := "whatsapp-tsulabs"; session_data := [Byte.x01];
                          metadata := ∅; created_at := 1; updated_at := 2;
                          expires_at := Some 2592000001 |} ]
                     ∅ 10 |})
  = None.
Proof.
  destruct (auth_failure_deletes_unless_update_fails
              {| this := ready_store (Some 2592000);
                 world := calm_world
                            [ {| session_id := "whatsapp-tsulabs";
                                 session_data := [Byte.x01];
                                 metadata := ∅; created_at := 1; updated_at := 2;
                                 expires_at := Some 2592000001 |} ]
                            ∅ 10 |}
              "bad session")
    as (Hok & _).
  - reflexivity.
  - destruct Hok as (_ & Hgone & _); [reflexivity|exact Hgone].
Defined.

(** A lost connection during a [delete]. *)
Lemma failed_statement_has_no_effect_witness :
  table_after (perform (CallDelete "t"))
    (failing_next (mkError None "connection lost") mixed_state)
  = [stale_row; other_row].
Proof.
  destruct (failed_statement_has_no_effect (CallDelete "t")
              (failing_next (mkError None "connection lost") mixed_state)
              (mkError None "connection lost") [])
    as (Htb & _).
  - reflexivity.
  - reflexivity.
  - discriminate.
  - discriminate.
  - exact Htb.
Defined.

Lemma lookups_agree_witness :
  exists r,
    find_row "whatsapp-t" (table_rows (world mixed_state)) = Some r
    /\ fst (getSessionMetadata "t" mixed_state) = Returned (Some (metadata_columns r))
    /\ fst (extract "t" "out.zip" mixed_state) = Returned (metadata r).
Proof.
  destruct (lookups_agree mixed_state "t" "out.zip") as (Htrue & _).
  - reflexivity.
  - apply primary_key_mixed.
  - reflexivity.
  - apply Htrue. reflexivity.
Defined.

(** TTL 60 s: the expired "s" is saved again at time 10. *)
Lemma save_revives_expired_row_witness :
  exists r',
    find_row "whatsapp-s" (table_after (save "s") busy_state) = Some r'
    /\ length (table_after (save "s") busy_state) = 3%nat
    /\ created_at r' = 1
    /\ expires_at r' = Some 60010
    /\ active 10 r' = true
    /\ active 60010 r' = false.
Proof.
  destruct (save_revives_expired_row busy_state "s" [Byte.x02; Byte.x03] stale_row)
    as (_ & r' & Hr' & Hlen & _ & Hcreated & Hexpires & Hiff & Hnow).
  - repeat constructor; simpl; intuition discriminate.
  - reflexivity.
  - vm_compute. reflexivity.
  - reflexivity.
  - reflexivity.
  - exists r'. split; [exact Hr'|]. split; [exact Hlen|].
    split; [exact Hcreated|]. split; [exact Hexpires|]. split.
    + apply (Hnow 60); [reflexivity|lia|simpl; lia].
    + destruct (active 60010 r') eqn:E; [|reflexivity].
      apply Hiff in E. destruct E as [E|E]; [discriminate|simpl in E; lia].
Defined.

(** From three rows: a save over "s", a first save of "v", a metadata
    update and an extract of "t", a delete of "u". *)
Lemma perform_all_invariants_witness :
  primary_key
    (table_rows (world (perform_all
       [CallSave "s"; CallSave "v";
        CallUpdateSessionMetadata "t" {[ "status" := JStr "ready" ]};
        CallExtract "t" "out.zip"; CallDelete "u"]
       busy_state)))
  /\ namespaced
       (table_rows (world (perform_all
          [CallSave "s"; CallSave "v";
           CallUpdateSessionMetadata "t" {[ "status" := JStr "ready" ]};
           CallExtract "t" "out.zip"; CallDelete "u"]
          busy_state)))
  /\ List.map session_id
       (table_rows (world (perform_all
          [CallSave "s"; CallSave "v";
           CallUpdateSessionMetadata "t" {[ "status" := JStr "ready" ]};
           CallExtract "t" "out.zip"; CallDelete "u"]
          busy_state)))
     = ["whatsapp-s"; "whatsapp-t"; "whatsapp-v"].
Proof.
  split; [|split].
  - apply (perform_all_invariants
             [CallSave "s"; CallSave "v";
              CallUpdateSessionMetadata "t" {[ "status" := JStr "ready" ]};
              CallExtract "t" "out.zip"; CallDelete "u"]
             busy_state).
    + repeat constructor; simpl; intuition discriminate.
    + repeat constructor; [exists "s"|exists "t"|exists "u"]; reflexivity.
  - apply (perform_all_invariants
             [CallSave "s"; CallSave "v";
              CallUpdateSessionMetadata "t" {[ "status" := JStr "ready" ]};
              CallExtract "t" "out.zip"; CallDelete "u"]
             busy_state).
    + repeat constructor; simpl; intuition discriminate.
    + repeat constructor; [exists "s"|exists "t"|exists "u"]; reflexivity.
  - vm_compute. reflexivity.
Defined.
